(** * steam-limiter: the filter hook DLL (steamfilter/filter.cpp)

    A shallow embedding of the interception handlers, of the bandwidth
    meter, of the entry-point patcher ([ApiHook]) and of the install /
    unload life cycle, followed by the properties of the written
    specification that can be stated over them.

    Conventions.
    - C integers are [Z]; every conversion and wrap-around of the source is
      written out ([u32], [to_int], [s64]).
    - Addresses are [Z]; the null pointer is [0].
    - What the DLL calls but does not define is an interface the model
      is generic in: the Winsock originals behind the resume pointers
      ([Winsock]), the rule engine of filterrule.h ([RuleEngine]) and the
      Win32 services ([Win32]). *)

From Stdlib Require Import ZArith List String Bool Lia.
Import ListNotations.
Local Open Scope Z_scope.

(** ** Machine integers *)

Definition u32 (z : Z) : Z := z mod 2 ^ 32.
Definition to_int (z : Z) : Z := (z + 2 ^ 31) mod 2 ^ 32 - 2 ^ 31.
Definition s64 (z : Z) : Z := (z + 2 ^ 63) mod 2 ^ 64 - 2 ^ 63.

(** ** Constants of winsock2.h used by the handlers *)

Definition AF_INET : Z := 2.
Definition INADDR_ANY : Z := 0.
Definition INADDR_NONE : Z := 0xFFFFFFFF.
Definition SOCKET_ERROR : Z := -1.
Definition MSG_PEEK : Z := 2.
Definition WSAECONNREFUSED : Z := 10061.
Definition WSAHOST_NOT_FOUND : Z := 11001.

(** ** Socket addresses

    [connectHook] receives a [const sockaddr *] and, once the family is
    [AF_INET], reads it through a [sockaddr_in *].  Both structures are 16
    bytes with the family first, so the pointee is kept in its
    [sockaddr_in] shape throughout; [sa_family] is the same field. *)

Record sockaddr_in := {
  sin_family : Z;
  sin_port : Z;
  sin_addr : Z;          (* sin_addr.S_un.S_addr *)
  sin_zero : list Z
}.

Definition sockaddr := sockaddr_in.
Definition sa_family (name : sockaddr) : Z := sin_family name.

Record hostent := {
  h_name : string;
  h_aliases : Z;
  h_addrtype : Z;
  h_length : Z;
  h_addr_list : list Z   (* the entries before the terminating null *)
}.

(** ** The bandwidth meter *)

Record Meter := {
  m_now : Z;
  m_currentBytes : Z;
  m_last : Z;
  m_total : Z
}.

(** [Meter :: Meter ()], given the value [GetTickCount ()] returns. *)
Definition Meter_new (tick : Z) : Meter :=
  {| m_now := tick; m_currentBytes := 0; m_last := 0; m_total := 0 |}.

(** [Meter :: newTick].  [delta2] of the source is computed and unused.
    [m_total] is a [long long]; its overflow is taken to wrap. *)
Definition newTick (now : Z) (m : Meter) : Meter :=
  let delta := u32 (now - m_now m) in
  if delta <? 1 then m
  else
    let bytes := m_currentBytes m in
    {| m_now := now;
       m_currentBytes := 0;
       m_last := m_now m;
       m_total := s64 (m_total m + bytes) |}.

(** [Meter :: operator +=], given the value [GetTickCount ()] returns
    inside the critical section.  [bytes] is an [int]; adding it to the
    [unsigned long] counter converts it and wraps. *)
Definition Meter_add (bytes : Z) (now : Z) (m : Meter) : Meter :=
  let bytes := if bytes =? SOCKET_ERROR then 0 else bytes in
  let m := newTick now m in
  {| m_now := m_now m;
     m_currentBytes := u32 (m_currentBytes m + bytes);
     m_last := m_last m;
     m_total := m_total m |}.

(** A run of [+=] calls: each carries its byte count and the tick read
    while the lock is held.  The lock serialises concurrent callers, so a
    list is every interleaving. *)
Definition Meter_adds (calls : list (Z * Z)) (m : Meter) : Meter :=
  fold_left (fun m c => Meter_add (fst c) (snd c) m) calls m.

(** What a byte count contributes: the failure sentinel counts as zero. *)
Definition counted (bytes : Z) : Z :=
  if bytes =? SOCKET_ERROR then 0 else bytes.

Definition sum_counted (calls : list (Z * Z)) : Z :=
  fold_right (fun c acc => counted (fst c) + acc) 0 calls.

(** ** What the DLL runs against *)

(** The part of the host process the filter does not own. *)
Record Proc (Host : Type) := {
  last_error : Z;      (* GetLastError () *)
  tick : Z;            (* GetTickCount () *)
  host : Host
}.
Arguments last_error {Host} _.
Arguments tick {Host} _.
Arguments host {Host} _.

(** What [WSARecv] leaves behind for the hook to read. *)
Record WSARecvOut := {
  wr_result : Z;
  wr_received : Z;       (* *received after the call *)
  wr_InternalHigh : Z    (* overlapped->InternalHigh after the call *)
}.

(** The original Winsock implementations, reached through the resume
    pointers. *)
Class Winsock (Host : Type) := {
  connect_orig : Z -> sockaddr -> Z -> Proc Host -> Z * Proc Host;
  gethostbyname_orig : string -> Proc Host -> Z * Proc Host;
  recv_orig : Z -> Z -> Z -> Z -> Proc Host -> Z * Proc Host;
  recvfrom_orig : Z -> Z -> Z -> Z -> Z -> Z -> Proc Host -> Z * Proc Host;
  WSARecv_orig :
    Z -> Z -> Z -> Z -> Z -> Z -> Z -> Proc Host -> WSARecvOut * Proc Host;
  WSAGetOverlappedResult_orig :
    Z -> Z -> Z -> Z -> Z -> Proc Host -> Z * Proc Host
}.

(** The rule engine of filterrule.h ([FilterRules]).  A [match] query
    yields its [bool] result and the final value of the [replace]
    out-parameter, which starts null. *)
Class RuleEngine (FilterRules : Type) := {
  rules_match_addr :
    FilterRules -> sockaddr_in -> Z -> bool * option sockaddr_in;
  rules_match_name :
    FilterRules -> string -> bool * option sockaddr_in;
  rules_install : FilterRules -> string -> bool * FilterRules;
  rules_append : FilterRules -> string -> FilterRules
}.

(** The Win32 services the patcher and the life cycle call.  Each takes
    and returns the state of the system, so its answers may change from
    call to call; [GetProcAddress] reads the export table of a loaded
    library and is a function of the handle and the name. *)
Class Win32 (Sys : Type) := {
  VirtualProtect : Z -> Z -> Z -> Sys -> bool * Sys;
  GetModuleHandleW : string -> Sys -> Z * Sys;
  Sleep : Z -> Sys -> Sys;
  GetProcAddress : Z -> string -> Z;
  GetModuleHandleExW : Sys -> Z * Sys;
  FreeLibrary : Z -> Sys -> Sys
}.

(** ** The hook objects *)

Inductive HookId :=
| H_connect | H_gethost | H_inet_addr | H_recv | H_recvfrom
| H_wsaRecv | H_wsaGetOverlapped.

(** What the build fixes: where the function-local statics of
    [gethostHook] and the [m_thunk] array of each hook object lie, the
    addresses of the handler functions, and what the uninitialised
    [sin_zero] on the stack of [connectHook] holds. *)
Class Layout := {
  result_ptr : Z;
  temp_sin_zero : list Z;
  thunk_addr : HookId -> Z;
  handler_addr : HookId -> Z
}.

(** ** The interception handlers *)

Section Handlers.

Context {Host FilterRules : Type}.
Context {winsock : Winsock Host} {engine : RuleEngine FilterRules}.
Context {layout : Layout}.

(** Calls made through the resume pointers. *)
Inductive Call :=
| Call_connect (s : Z) (name : sockaddr) (namelen : Z)
| Call_gethostbyname (name : string)
| Call_recv (s buf len flags : Z)
| Call_recvfrom (s buf len flags from fromLen : Z)
| Call_WSARecv (s buffers count received flags overlapped handler : Z)
| Call_WSAGetOverlappedResult (s overlapped length wait flags : Z).

Record World := {
  proc : Proc Host;
  g_rules : FilterRules;
  g_meter : Meter;
  gethost_result : hostent;       (* static hostent result *)
  debug : list string;            (* OutputDebugStringA *)
  resumed : list Call             (* calls through resume pointers *)
}.

Definition with_proc (p : Proc Host) (w : World) : World :=
  {| proc := p; g_rules := g_rules w; g_meter := g_meter w;
     gethost_result := gethost_result w;
     debug := debug w; resumed := resumed w |}.

Definition with_meter (m : Meter) (w : World) : World :=
  {| proc := proc w; g_rules := g_rules w; g_meter := m;
     gethost_result := gethost_result w;
     debug := debug w; resumed := resumed w |}.

Definition with_result (h : hostent) (w : World) : World :=
  {| proc := proc w; g_rules := g_rules w; g_meter := g_meter w;
     gethost_result := h;
     debug := debug w; resumed := resumed w |}.

Definition OutputDebugStringA (msg : string) (w : World) : World :=
  {| proc := proc w; g_rules := g_rules w; g_meter := g_meter w;
     gethost_result := gethost_result w;
     debug := debug w ++ [msg]; resumed := resumed w |}.

Definition SetLastError (code : Z) (w : World) : World :=
  with_proc {| last_error := code; tick := tick (proc w);
               host := host (proc w) |} w.

Definition resume (c : Call) (p : Proc Host) (w : World) : World :=
  {| proc := p; g_rules := g_rules w; g_meter := g_meter w;
     gethost_result := gethost_result w;
     debug := debug w; resumed := resumed w ++ [c] |}.

(** The call through [g_connectResume], and its siblings. *)
Definition connectResume (s : Z) (name : sockaddr) (namelen : Z)
    (w : World) : Z * World :=
  let (r, p) := connect_orig s name namelen (proc w) in
  (r, resume (Call_connect s name namelen) p w).

Definition gethostResume (name : string) (w : World) : Z * World :=
  let (r, p) := gethostbyname_orig name (proc w) in
  (r, resume (Call_gethostbyname name) p w).

Definition recvResume (s buf len flags : Z) (w : World) : Z * World :=
  let (r, p) := recv_orig s buf len flags (proc w) in
  (r, resume (Call_recv s buf len flags) p w).

Definition recvfromResume (s buf len flags from fromLen : Z) (w : World)
    : Z * World :=
  let (r, p) := recvfrom_orig s buf len flags from fromLen (proc w) in
  (r, resume (Call_recvfrom s buf len flags from fromLen) p w).

Definition wsaRecvResume (s buffers count received flags overlapped
    handler : Z) (w : World) : WSARecvOut * World :=
  let (r, p) :=
    WSARecv_orig s buffers count received flags overlapped handler
                 (proc w) in
  (r, resume (Call_WSARecv s buffers count received flags overlapped
                           handler) p w).

Definition wsaGetOverlappedResume (s overlapped length wait flags : Z)
    (w : World) : Z * World :=
  let (r, p) :=
    WSAGetOverlappedResult_orig s overlapped length wait flags (proc w) in
  (r, resume (Call_WSAGetOverlappedResult s overlapped length wait flags)
             p w).

(** [g_meter += bytes]: the argument is converted to [int] at the call,
    and the tick is read inside. *)
Definition meter_add (bytes : Z) (w : World) : World :=
  with_meter (Meter_add (to_int bytes) (tick (proc w)) (g_meter w)) w.

Definition sizeof_sockaddr_in : Z := 16.

(** [connectHook].  [module] stays null (the capture is under [#if 0]).
    The query is pure here, so that the [||] of the source leaves it out
    for another family does not show; its answer is then not looked at. *)
Definition connectHook (s : Z) (name : sockaddr) (namelen : Z)
    (w : World) : Z * World :=
  let module := 0 in
  let query := rules_match_addr (g_rules w) name module in
  if negb (sa_family name =? AF_INET) || negb (fst query) then
    connectResume s name namelen w
  else
    match snd query with
    | None =>
        let w := OutputDebugStringA "Connect refused\r\n" w in
        (SOCKET_ERROR, SetLastError WSAECONNREFUSED w)
    | Some replace =>
        if sin_addr replace =? INADDR_NONE then
          let w := OutputDebugStringA "Connect refused\r\n" w in
          (SOCKET_ERROR, SetLastError WSAECONNREFUSED w)
        else
          let w := OutputDebugStringA "Connect redirected\r\n" w in
          let base := name in
          let temp :=
            {| sin_family := sin_family base;
               sin_port := if negb (sin_port replace =? 0)
                           then sin_port replace else sin_port base;
               sin_addr := if negb (sin_addr replace =? 0)
                           then sin_addr replace else sin_addr base;
               sin_zero := temp_sin_zero |} in
          connectResume s temp sizeof_sockaddr_in w
    end.

(** [gethostHook]. *)
Definition gethostHook (name : string) (w : World) : Z * World :=
  let query := rules_match_name (g_rules w) name in
  let replace := snd query in
  if negb (fst query)
     || match replace with
        | Some r => sin_addr r =? INADDR_ANY
        | None => false
        end
  then gethostResume name w
  else
    match replace with
    | None =>
        let w := OutputDebugStringA "gethostbyname refused\r\n" w in
        (0, SetLastError WSAHOST_NOT_FOUND w)
    | Some r =>
        if sin_addr r =? INADDR_NONE then
          let w := OutputDebugStringA "gethostbyname refused\r\n" w in
          (0, SetLastError WSAHOST_NOT_FOUND w)
        else
          let w := OutputDebugStringA "gethostbyname redirected\r\n" w in
          let addr := sin_addr r in
          let result :=
            {| h_name := "remapped.local";
               h_aliases := 0;
               h_addrtype := AF_INET;
               h_length := 4;
               h_addr_list := [addr] |} in
          (result_ptr, with_result result w)
    end.

(** [recvHook] and [recvfromHook]. *)
Definition recvHook (s buf len flags : Z) (w : World) : Z * World :=
  let (result, w) := recvResume s buf len flags w in
  (result, meter_add result w).

Definition recvfromHook (s buf len flags from fromLen : Z) (w : World)
    : Z * World :=
  let (result, w) := recvfromResume s buf len flags from fromLen w in
  (result, meter_add result w).

(** [wsaRecvHook].  [flags] is a pointer; [flags_in] is what it points
    to on entry and is read only when the pointer is not null. *)
Definition wsaRecvHook (s buffers count received flags overlapped
    handler : Z) (flags_in : Z) (w : World) : Z * World :=
  if negb (overlapped =? 0) || negb (handler =? 0) then
    let (out, w) :=
      wsaRecvResume s buffers count received flags overlapped handler w in
    let result := wr_result out in
    if (result =? 0) && negb (overlapped =? 0) then
      (result, meter_add (wr_InternalHigh out) w)
    else (result, w)
  else
    let ignore :=
      negb (flags =? 0) && negb (Z.land flags_in MSG_PEEK =? 0) in
    let (out, w) :=
      wsaRecvResume s buffers count received flags overlapped handler w in
    let result := wr_result out in
    if negb (result =? SOCKET_ERROR) && negb ignore then
      (result, meter_add (wr_received out) w)
    else (result, w).

(** [wsaGetOverlappedHook]. *)
Definition wsaGetOverlappedHook (s overlapped length wait flags : Z)
    (w : World) : Z * World :=
  wsaGetOverlappedResume s overlapped length wait flags w.

End Handlers.

(** ** Code memory *)

(** One byte per address.  The entry points patched are those of a mapped
    library: the model follows executions in which that memory stays
    mapped, where the [__try] of [unhook] runs to its end. *)
Definition Memory := Z -> Z.

Definition store (m : Memory) (a v : Z) : Memory :=
  fun x => if x =? a then v else m x.

(** [memcpy] from a buffer into memory, and from memory into a buffer. *)
Fixpoint memcpy_to (m : Memory) (dest : Z) (src : list Z) : Memory :=
  match src with
  | [] => m
  | b :: rest => memcpy_to (store m dest b) (dest + 1) rest
  end.

Fixpoint read_bytes (m : Memory) (src : Z) (n : nat) : list Z :=
  match n with
  | O => []
  | S k => m src :: read_bytes m (src + 1) k
  end.

(** Unaligned little-endian 16-bit load and store of the x86. *)
Definition read16 (m : Memory) (a : Z) : Z := m a + 256 * m (a + 1).

Definition write16 (m : Memory) (a v : Z) : Memory :=
  store (store m a (Z.land v 0xFF)) (a + 1) (Z.land (Z.shiftr v 8) 0xFF).

(** Overwrite a buffer from index [i] on. *)
Definition buf_write (buf : list Z) (i : nat) (src : list Z) : list Z :=
  firstn i buf ++ src ++ skipn (i + List.length src) buf.

(** [writeOffset]: the four bytes it stores at [dest], low byte first. *)
Definition writeOffset (value : Z) : list Z :=
  let b0 := Z.land value 0xFF in
  let value := Z.shiftr value 8 in
  let b1 := Z.land value 0xFF in
  let value := Z.shiftr value 8 in
  let b2 := Z.land value 0xFF in
  let value := Z.shiftr value 8 in
  let b3 := Z.land value 0xFF in
  [b0; b1; b2; b3].

Definition PUSH_IMM8 : Z := 0x6A.
Definition JMP_LONG : Z := 0xE9.
Definition JMP_SHORT : Z := 0xEB.
Definition MOV_EDI_EDI : Z := 0xFF8B.
Definition JMP_SHORT_MINUS5 : Z := 0xF900 + JMP_SHORT.
Definition PAGE_EXECUTE_READWRITE : Z := 0x40.
Definition DLL_PROCESS_DETACH : Z := 0.

(** ** Hook records *)

Record ApiHook := {
  m_original : Z;
  m_resume : Z;
  m_hook : Z;
  m_save : list Z;       (* unsigned char [8] *)
  m_thunk : list Z       (* unsigned char [16] *)
}.

(** [ApiHook :: ApiHook ()] on an object of static storage: the arrays
    are not touched by the constructor and start zeroed. *)
Definition ApiHook_new : ApiHook :=
  {| m_original := 0; m_resume := 0; m_hook := 0;
     m_save := repeat 0 8; m_thunk := repeat 0 16 |}.

(** [operator == (int)] and [operator != (int)]. *)
Definition hook_is_null (h : ApiHook) : bool := m_resume h =? 0.
Definition hook_not_null (h : ApiHook) : bool := negb (m_resume h =? 0).

(** The seven global hook objects. *)
Record Hooks := {
  g_connectResume : ApiHook;
  g_gethostResume : ApiHook;
  g_inet_addr_resume : ApiHook;
  g_recvResume : ApiHook;
  g_recvfromResume : ApiHook;
  g_wsaRecvResume : ApiHook;
  g_wsaGetOverlappedResume : ApiHook
}.

Definition get_hook (id : HookId) (hs : Hooks) : ApiHook :=
  match id with
  | H_connect => g_connectResume hs
  | H_gethost => g_gethostResume hs
  | H_inet_addr => g_inet_addr_resume hs
  | H_recv => g_recvResume hs
  | H_recvfrom => g_recvfromResume hs
  | H_wsaRecv => g_wsaRecvResume hs
  | H_wsaGetOverlapped => g_wsaGetOverlappedResume hs
  end.

Definition set_hook (id : HookId) (h : ApiHook) (hs : Hooks) : Hooks :=
  {| g_connectResume :=
       match id with H_connect => h | _ => g_connectResume hs end;
     g_gethostResume :=
       match id with H_gethost => h | _ => g_gethostResume hs end;
     g_inet_addr_resume :=
       match id with H_inet_addr => h | _ => g_inet_addr_resume hs end;
     g_recvResume :=
       match id with H_recv => h | _ => g_recvResume hs end;
     g_recvfromResume :=
       match id with H_recvfrom => h | _ => g_recvfromResume hs end;
     g_wsaRecvResume :=
       match id with H_wsaRecv => h | _ => g_wsaRecvResume hs end;
     g_wsaGetOverlappedResume :=
       match id with
       | H_wsaGetOverlapped => h
       | _ => g_wsaGetOverlappedResume hs
       end |}.

Definition Hooks_new : Hooks :=
  {| g_connectResume := ApiHook_new;
     g_gethostResume := ApiHook_new;
     g_inet_addr_resume := ApiHook_new;
     g_recvResume := ApiHook_new;
     g_recvfromResume := ApiHook_new;
     g_wsaRecvResume := ApiHook_new;
     g_wsaGetOverlappedResume := ApiHook_new |}.

Definition HookId_eqb (a b : HookId) : bool :=
  match a, b with
  | H_connect, H_connect | H_gethost, H_gethost
  | H_inet_addr, H_inet_addr | H_recv, H_recv
  | H_recvfrom, H_recvfrom | H_wsaRecv, H_wsaRecv
  | H_wsaGetOverlapped, H_wsaGetOverlapped => true
  | _, _ => false
  end.

(** The patch area of an entry point: the five bytes before it and the two
    bytes at it. *)
Definition in_patch (p a : Z) : Prop := p - 5 <= a < p + 2.

(** ** The patcher and the life cycle *)

Section Lifecycle.

Context {Sys FilterRules : Type}.
Context {win32 : Win32 Sys} {engine : RuleEngine FilterRules}.
Context {layout : Layout}.

Definition with_resume (r : Z) (h : ApiHook) : ApiHook :=
  {| m_original := m_original h; m_resume := r; m_hook := m_hook h;
     m_save := m_save h; m_thunk := m_thunk h |}.

Definition with_thunk (t : list Z) (h : ApiHook) : ApiHook :=
  {| m_original := m_original h; m_resume := m_resume h;
     m_hook := m_hook h; m_save := m_save h; m_thunk := t |}.

(** [ApiHook :: makeThunk]; [this_thunk] is the address of [m_thunk]. *)
Definition makeThunk (this_thunk data : Z) (bytes : nat) (h : ApiHook)
    (c : Memory) (s : Sys) : Z * ApiHook * Sys :=
  let t := buf_write (m_thunk h) 0 (read_bytes c data bytes) in
  let t := buf_write t bytes [JMP_LONG] in
  let t := buf_write t (bytes + 1) (writeOffset (u32 (this_thunk - data))) in
  let h := with_thunk t h in
  let (ok, s) := VirtualProtect this_thunk 16 PAGE_EXECUTE_READWRITE s in
  if negb ok then (0, h, s) else (this_thunk, h, s).

(** The tail of [attach (void *, FARPROC)]: unprotect, then write the
    long jump and the short jump. *)
Definition write_detour (data hook : Z) (h : ApiHook) (c : Memory)
    (s : Sys) : bool * ApiHook * Memory * Sys :=
  let (ok, s) := VirtualProtect (data - 5) 7 PAGE_EXECUTE_READWRITE s in
  if negb ok then (false, h, c, s)
  else
    let c := store c (data - 5) JMP_LONG in
    let c := memcpy_to c (data - 4) (writeOffset (u32 (hook - data))) in
    let c := write16 c data JMP_SHORT_MINUS5 in
    (true, h, c, s).

(** [ApiHook :: attach (void * address, FARPROC hook)]. *)
Definition ApiHook_attach (this_thunk address hook : Z) (h : ApiHook)
    (c : Memory) (s : Sys) : bool * ApiHook * Memory * Sys :=
  if address =? 0 then (false, h, c, s)
  else
    let data := address in
    let h :=
      {| m_original := address; m_resume := 0; m_hook := hook;
         m_save := read_bytes c (data - 5) 8; m_thunk := m_thunk h |} in
    if read16 c data =? MOV_EDI_EDI then
      write_detour data hook (with_resume (data + 2) h) c s
    else if c data =? PUSH_IMM8 then
      let '(r, h, s) := makeThunk this_thunk data 2 h c s in
      write_detour data hook (with_resume r h) c s
    else (false, h, c, s).

(** [ApiHook :: unhook].  With the memory mapped the copy under [__try]
    completes, and [__finally] clears the two fields after it. *)
Definition ApiHook_unhook (h : ApiHook) (c : Memory) : ApiHook * Memory :=
  if m_resume h =? 0 then (h, c)
  else
    let c := memcpy_to c (m_original h - 5) (firstn 7 (m_save h)) in
    ({| m_original := 0; m_resume := 0; m_hook := m_hook h;
        m_save := m_save h; m_thunk := m_thunk h |}, c).

(** The globals of the DLL next to the memory it patches. *)
Record Dll := {
  sys : Sys;
  code : Memory;
  hooks : Hooks;
  rules : FilterRules;       (* g_rules *)
  g_instance : Z;
  dbg : list string
}.

Definition OutputDebugString (msg : string) (st : Dll) : Dll :=
  {| sys := sys st; code := code st; hooks := hooks st;
     rules := rules st; g_instance := g_instance st;
     dbg := dbg st ++ [msg] |}.

Definition with_hook (id : HookId) (h : ApiHook) (st : Dll) : Dll :=
  {| sys := sys st; code := code st;
     hooks := set_hook id h (hooks st);
     rules := rules st; g_instance := g_instance st; dbg := dbg st |}.

Definition with_machine (c : Memory) (s : Sys) (st : Dll) : Dll :=
  {| sys := s; code := c; hooks := hooks st;
     rules := rules st; g_instance := g_instance st; dbg := dbg st |}.

Definition with_rules (r : FilterRules) (st : Dll) : Dll :=
  {| sys := sys st; code := code st; hooks := hooks st;
     rules := r; g_instance := g_instance st; dbg := dbg st |}.

Definition with_instance (i : Z) (st : Dll) : Dll :=
  {| sys := sys st; code := code st; hooks := hooks st;
     rules := rules st; g_instance := i; dbg := dbg st |}.

Definition hook (id : HookId) (st : Dll) : ApiHook :=
  get_hook id (hooks st).

(** The two [attach] overloads and [unhook] on a global hook object. *)
Definition attach (id : HookId) (address hook_fn : Z) (st : Dll)
    : bool * Dll :=
  let '(ok, h, c, s) :=
    ApiHook_attach (thunk_addr id) address hook_fn (hook id st)
                   (code st) (sys st) in
  (ok, with_hook id h (with_machine c s st)).

Definition attach_export (id : HookId) (hook_fn lib : Z) (name : string)
    (st : Dll) : bool * Dll :=
  let func := GetProcAddress lib name in
  if func =? 0 then
    let st := OutputDebugString "No function: " st in
    let st := OutputDebugString name st in
    let st := OutputDebugString "\r\n" st in
    (false, with_hook id (with_resume 0 (hook id st)) st)
  else
    let (ok, st) := attach id func hook_fn st in
    if negb ok then
      let st := OutputDebugString "Can't hook: " st in
      let st := OutputDebugString name st in
      let st := OutputDebugString "\r\n" st in
      (false, with_hook id (with_resume 0 (hook id st)) st)
    else (true, st).

Definition unhook (id : HookId) (st : Dll) : Dll :=
  let (h, c) := ApiHook_unhook (hook id st) (code st) in
  with_hook id h (with_machine c (sys st) st).

(** [unhookAll]. *)
Definition unhookAll (st : Dll) : Dll :=
  let st := unhook H_connect st in
  let st := unhook H_gethost st in
  let st := unhook H_inet_addr st in
  let st := unhook H_recv st in
  let st := unhook H_recvfrom st in
  let st := unhook H_wsaRecv st in
  unhook H_wsaGetOverlapped st.

(** [setFilter]. *)
Definition setFilter (address : string) (st : Dll) : Z * Dll :=
  let (result, r) := rules_install (rules st) address in
  if result then
    (1, with_rules (rules_append r "content?.steampowered.com=") st)
  else (0, with_rules r st).

(** The exports hooked by [SteamFilter], in the order of its [&&]
    chain; [attach_chain] stops at the first failure as [&&] does. *)
Definition hooked_exports : list (HookId * string) :=
  [(H_connect, "connect"%string);
   (H_gethost, "gethostbyname"%string);
   (H_recv, "recv"%string);
   (H_recvfrom, "recvfrom"%string);
   (H_wsaRecv, "WSARecv"%string);
   (H_wsaGetOverlapped, "WSAGetOverlappedResult"%string)].

Fixpoint attach_chain (targets : list (HookId * string)) (ws2 : Z)
    (st : Dll) : bool * Dll :=
  match targets with
  | [] => (true, st)
  | (id, name) :: rest =>
      let (ok, st) := attach_export id (handler_addr id) ws2 name st in
      if ok then attach_chain rest ws2 st else (false, st)
  end.

(** The wait loop of [SteamFilter]: poll, sleep a second, poll again.
    It has no bound in the source; [fuel] bounds the polls here. *)
Fixpoint wait_ws2 (fuel : nat) (s : Sys) : option (Z * Sys) :=
  match fuel with
  | O => None
  | S k =>
      let (ws2, s) := GetModuleHandleW "WS2_32.DLL" s in
      if negb (ws2 =? 0) then Some (ws2, s)
      else wait_ws2 k (Sleep 1000 s)
  end.

(** [SteamFilter].  [result] and [resultSize] are not used by the
    source.  [~ 0UL] returned as [int] is [-1]. *)
Definition SteamFilter (fuel : nat) (address : string) (st : Dll)
    : option (Z * Dll) :=
  if hook_not_null (hook H_connect st) then Some (setFilter address st)
  else
    match wait_ws2 fuel (sys st) with
    | None => None
    | Some (ws2, s) =>
        let st := with_machine (code st) s st in
        let (_, st) := setFilter address st in
        let (success, st) := attach_chain hooked_exports ws2 st in
        if negb success then
          Some (to_int (u32 (Z.lnot 0)), unhookAll st)
        else
          let st := OutputDebugString "SteamFilter hook attached\n" st in
          let (inst, s) := GetModuleHandleExW (sys st) in
          Some (1, with_instance inst (with_machine (code st) s st))
    end.

(** [removeHook]. *)
Definition removeHook (st : Dll) : Dll :=
  if hook_is_null (hook H_connect st) then st
  else OutputDebugString "SteamFilter unhooked\n" (unhookAll st).

(** [FilterUnload]. *)
Definition FilterUnload (st : Dll) : Z * Dll :=
  if g_instance st =? 0 then (0, st)
  else
    let st := removeHook st in
    let st := with_machine (code st) (FreeLibrary (g_instance st) (sys st))
                           st in
    (1, with_instance 0 st).

(** [DllMain]: on detach the function ends without a [return]. *)
Definition DllMain (reason : Z) (st : Dll) : option Z * Dll :=
  if negb (reason =? DLL_PROCESS_DETACH) then (Some 1, st)
  else (None, removeHook st).

(** The fresh DLL: hooks constructed, [g_instance] null. *)
Definition Dll_new (s : Sys) (c : Memory) (r : FilterRules) : Dll :=
  {| sys := s; code := c; hooks := Hooks_new; rules := r;
     g_instance := 0; dbg := [] |}.

(** Calls to the entry points, and runs of them. *)
Inductive Op :=
| Op_SteamFilter (fuel : nat) (address : string)
| Op_FilterUnload
| Op_DllMain (reason : Z).

Definition step (op : Op) (st : Dll) : option Dll :=
  match op with
  | Op_SteamFilter fuel address =>
      match SteamFilter fuel address st with
      | Some (_, st) => Some st
      | None => None
      end
  | Op_FilterUnload => Some (snd (FilterUnload st))
  | Op_DllMain reason => Some (snd (DllMain reason st))
  end.

Fixpoint run (ops : list Op) (st : Dll) : option Dll :=
  match ops with
  | [] => Some st
  | op :: rest =>
      match step op st with
      | Some st => run rest st
      | None => None
      end
  end.

End Lifecycle.

(** ** Predicates on the life cycle *)

Section LifecyclePredicates.

Context {Sys FilterRules : Type}.
Context {win32 : Win32 Sys} {layout : Layout}.

(** The system after [n] polls that found no WS2_32.DLL. *)
Fixpoint polls (n : nat) (s : Sys) : Sys :=
  match n with
  | O => s
  | S k => polls k (Sleep 1000 (snd (GetModuleHandleW "WS2_32.DLL" s)))
  end.

(** WS2_32.DLL is there at the poll after [n] idle ones. *)
Definition ws2_shows_up (n : nat) (s : Sys) : Prop :=
  fst (GetModuleHandleW "WS2_32.DLL" (polls n s)) <> 0.

(** No hook object holds a resume address. *)
Definition never_installed (st : @Dll Sys FilterRules) : Prop :=
  forall id, m_resume (hook id st) = 0.

(** Memory [m0] is what unhooking the installed records gives back:
    each installed record saved the bytes of [m0] for its patch area,
    and outside those areas memory is [m0]. *)
Definition Restorable (m0 : Memory) (st : @Dll Sys FilterRules) : Prop :=
  (forall id,
      m_resume (hook id st) <> 0 ->
      firstn 7 (m_save (hook id st))
      = read_bytes m0 (m_original (hook id st) - 5) 7)
  /\ (forall a,
      (forall id, m_resume (hook id st) <> 0 ->
                  ~ in_patch (m_original (hook id st)) a) ->
      code st a = m0 a).

(** Every installed record sits at one of the exports [SteamFilter]
    hooks, resolved in a library among [libs]. *)
Definition Located (libs : Z -> Prop) (st : @Dll Sys FilterRules) : Prop :=
  forall id,
    m_resume (hook id st) <> 0 ->
    exists lib name,
      libs lib /\ In (id, name) hooked_exports
      /\ GetProcAddress lib name <> 0
      /\ m_original (hook id st) = GetProcAddress lib name.

(** Making a relocation stub executable does not fail, and the stub is
    somewhere. *)
Definition stub_protect_ok : Prop :=
  forall id s,
    thunk_addr id <> 0
    /\ fst (VirtualProtect (thunk_addr id) 16 PAGE_EXECUTE_READWRITE s)
       = true.

(** Exports are at unsigned addresses. *)
Definition addresses_unsigned : Prop :=
  forall lib name, 0 <= GetProcAddress lib name.

(** The patch areas of two different hooked exports of [lib] share no
    byte. *)
Definition exports_apart (lib : Z) : Prop :=
  forall id name id' name' a,
    In (id, name) hooked_exports -> In (id', name') hooked_exports ->
    id <> id' ->
    GetProcAddress lib name <> 0 -> GetProcAddress lib name' <> 0 ->
    in_patch (GetProcAddress lib name) a ->
    ~ in_patch (GetProcAddress lib name') a.

(** [a] is in the patch area of no export [SteamFilter] hooks. *)
Definition outside_hooked_exports (a : Z) : Prop :=
  forall lib id name,
    In (id, name) hooked_exports ->
    ~ in_patch (GetProcAddress lib name) a.

(** What no run of the entry points disturbs: the hook object of
    [inet_addr], and the bytes outside the patch areas of the hooked
    exports, as in memory [c0]. *)
Definition Undisturbed (c0 : Memory) (st : @Dll Sys FilterRules) : Prop :=
  hook H_inet_addr st = ApiHook_new
  /\ Located (fun _ => True) st
  /\ (forall a, outside_hooked_exports a -> code st a = c0 a).

End LifecyclePredicates.

(** A byte count as the receive calls return it. *)
Definition valid_count (bytes : Z) : Prop :=
  bytes = SOCKET_ERROR \/ 0 <= bytes.

(** No counter overflows along a run of [+=] calls from meter [m]: the
    window counter stays under 2^32 at each addition, and what a tick
    moves into the total fits its 64 bits. *)
Fixpoint fits (calls : list (Z * Z)) (m : Meter) : Prop :=
  match calls with
  | [] => True
  | c :: rest =>
      m_total m + m_currentBytes m < 2 ^ 63
      /\ m_currentBytes (newTick (snd c) m) + counted (fst c) < 2 ^ 32
      /\ fits rest (Meter_add (fst c) (snd c) m)
  end.

(** ** Decisions of the rule engine *)

(** A matched rule denies when it gives no replacement, or the reserved
    address [INADDR_NONE]. *)
Definition deny_decision (replace : option sockaddr_in) : Prop :=
  match replace with
  | None => True
  | Some r => sin_addr r = INADDR_NONE
  end.

(** ** Concrete scenarios *)

(** A host whose originals always succeed; every call takes one tick. *)
Definition later (p : Proc unit) : Proc unit :=
  {| last_error := last_error p; tick := tick p + 1; host := host p |}.

Definition demo_winsock : Winsock unit :=
  {| connect_orig := fun _ _ _ p => (0, later p);
     gethostbyname_orig := fun _ p => (0x5000, later p);
     recv_orig := fun _ _ _ _ p => (100, later p);
     recvfrom_orig := fun _ _ _ _ _ _ p => (100, later p);
     WSARecv_orig := fun _ _ _ _ _ _ _ p =>
       ({| wr_result := 0; wr_received := 64; wr_InternalHigh := 64 |},
        later p);
     WSAGetOverlappedResult_orig := fun _ _ _ _ _ p => (1, later p) |}.

(** A rule set that is one verdict, given to every query. *)
Definition Verdict : Type := bool * option sockaddr_in.

Definition demo_engine : RuleEngine Verdict :=
  {| rules_match_addr := fun v _ _ => v;
     rules_match_name := fun v _ => v;
     rules_install := fun v _ => (true, v);
     rules_append := fun v _ => v |}.

Definition demo_layout : Layout :=
  {| result_ptr := 0x7000;
     temp_sin_zero := repeat 0xCC 8;
     thunk_addr := fun id =>
       match id with
       | H_connect => 0x9014
       | H_gethost => 0x9038
       | H_inet_addr => 0x905C
       | H_recv => 0x9080
       | H_recvfrom => 0x90A4
       | H_wsaRecv => 0x90C8
       | H_wsaGetOverlapped => 0x90EC
       end;
     handler_addr := fun id =>
       match id with
       | H_connect => 0x8000
       | H_gethost => 0x8100
       | H_inet_addr => 0
       | H_recv => 0x8200
       | H_recvfrom => 0x8300
       | H_wsaRecv => 0x8400
       | H_wsaGetOverlapped => 0x8500
       end |}.

Definition demo_proc : Proc unit :=
  {| last_error := 0; tick := 1000; host := tt |}.

Definition demo_world (v : Verdict) : @World unit Verdict :=
  {| proc := demo_proc; g_rules := v; g_meter := Meter_new 1000;
     gethost_result :=
       {| h_name := ""; h_aliases := 0; h_addrtype := 0; h_length := 0;
          h_addr_list := [] |};
     debug := []; resumed := [] |}.

(** 93.184.216.34:443, and a redirect to 10.0.0.5 that keeps the port. *)
Definition demo_dest : sockaddr :=
  {| sin_family := AF_INET; sin_port := 443; sin_addr := 0x5DB8D822;
     sin_zero := repeat 0 8 |}.

Definition demo_redirect : sockaddr_in :=
  {| sin_family := AF_INET; sin_port := 0; sin_addr := 0x0A000005;
     sin_zero := repeat 0 8 |}.

Definition demo_none : sockaddr_in :=
  {| sin_family := AF_INET; sin_port := 0; sin_addr := INADDR_NONE;
     sin_zero := repeat 0 8 |}.

(** An AF_INET6 destination seen through the same 16 leading bytes. *)
Definition demo_dest6 : sockaddr :=
  {| sin_family := 23; sin_port := 443; sin_addr := 0;
     sin_zero := repeat 0 8 |}.

(** A rule set whose configuration is always refused. *)
Definition strict_engine : RuleEngine Verdict :=
  {| rules_match_addr := fun v _ _ => v;
     rules_match_name := fun v _ => v;
     rules_install := fun v _ => (false, v);
     rules_append := fun v _ => v |}.

(** A system counted in polls: WS2_32.DLL is there from the third poll
    on, with its exports 256 bytes apart. *)
Definition demo_exports (lib : Z) (name : string) : Z :=
  if (name =? "connect")%string then 0x1000
  else if (name =? "gethostbyname")%string then 0x1100
  else if (name =? "recv")%string then 0x1200
  else if (name =? "recvfrom")%string then 0x1300
  else if (name =? "WSARecv")%string then 0x1400
  else if (name =? "WSAGetOverlappedResult")%string then 0x1500
  else if (name =? "inet_addr")%string then 0x1600
  else 0.

Definition fair_win32 : Win32 nat :=
  {| VirtualProtect := fun _ _ _ s => (true, s);
     GetModuleHandleW := fun _ s =>
       (if (2 <=? s)%nat then 0x10000 else 0, s);
     Sleep := fun _ s => S s;
     GetProcAddress := demo_exports;
     GetModuleHandleExW := fun s => (0x20000, s);
     FreeLibrary := fun _ s => s |}.

(** The same system, refusing to make the data of the DLL (where the
    hook objects lie, from 0x9000 to 0xA000) executable. *)
Definition stubborn_win32 : Win32 nat :=
  {| VirtualProtect := fun addr _ _ s =>
       (negb ((0x9000 <=? addr) && (addr <? 0xA000)), s);
     GetModuleHandleW := fun _ s =>
       (if (2 <=? s)%nat then 0x10000 else 0, s);
     Sleep := fun _ s => S s;
     GetProcAddress := demo_exports;
     GetModuleHandleExW := fun s => (0x20000, s);
     FreeLibrary := fun _ s => s |}.

(** Code in which every export starts with [mov edi, edi] after five
    bytes of padding. *)
Definition demo_code : Memory :=
  fun a =>
    if a mod 0x100 =? 0 then 0x8B
    else if a mod 0x100 =? 1 then 0xFF
    else 0x90.

(** The same with [connect] starting with [push 0x10]. *)
Definition push_code : Memory :=
  fun a =>
    if a =? 0x1000 then 0x6A
    else if a =? 0x1001 then 0x10
    else demo_code a.

(** The same with [WSARecv] starting with [push ebp], which the patcher
    does not know. *)
Definition odd_code : Memory :=
  fun a => if a =? 0x1400 then 0x55 else demo_code a.

Definition demo_dll (c : Memory) : @Dll nat Verdict :=
  Dll_new 0%nat c (true, None).

(** ** Reading the generated code *)

(** The value of bytes stored low byte first. *)
Definition le32 (bytes : list Z) : Z :=
  fold_right (fun b acc => b + 256 * acc) 0 bytes.

(** Where the x86 goes from a [jmp rel32] placed at [at_]: the end of the
    five-byte instruction plus the displacement, in 32 bits. *)
Definition jmp_long_target (at_ rel32 : Z) : Z := u32 (at_ + 5 + rel32).

(** Where it goes from a [jmp rel8] placed at [at_]: the end of the
    two-byte instruction plus the sign-extended displacement byte. *)
Definition jmp_short_target (at_ rel8 : Z) : Z :=
  u32 (at_ + 2 + (if rel8 <? 128 then rel8 else rel8 - 256)).

(** ** More scenarios *)

(** A system in which WS2_32.DLL is never loaded. *)
Definition absent_win32 : Win32 nat :=
  {| VirtualProtect := fun _ _ _ s => (true, s);
     GetModuleHandleW := fun _ s => (0, s);
     Sleep := fun _ s => S s;
     GetProcAddress := demo_exports;
     GetModuleHandleExW := fun s => (0x20000, s);
     FreeLibrary := fun _ s => s |}.

(** A library without [WSAGetOverlappedResult]. *)
Definition legacy_exports (lib : Z) (name : string) : Z :=
  if (name =? "WSAGetOverlappedResult")%string then 0
  else demo_exports lib name.

Definition legacy_win32 : Win32 nat :=
  {| VirtualProtect := fun _ _ _ s => (true, s);
     GetModuleHandleW := fun _ s =>
       (if (2 <=? s)%nat then 0x10000 else 0, s);
     Sleep := fun _ s => S s;
     GetProcAddress := legacy_exports;
     GetModuleHandleExW := fun s => (0x20000, s);
     FreeLibrary := fun _ s => s |}.

(** A host whose [WSARecv] is still pending when it returns. *)
Definition WSA_IO_PENDING : Z := 997.

Definition pending_winsock : Winsock unit :=
  {| connect_orig := fun _ _ _ p => (0, later p);
     gethostbyname_orig := fun _ p => (0x5000, later p);
     recv_orig := fun _ _ _ _ p => (SOCKET_ERROR, later p);
     recvfrom_orig := fun _ _ _ _ _ _ p => (SOCKET_ERROR, later p);
     WSARecv_orig := fun _ _ _ _ _ _ _ p =>
       ({| wr_result := SOCKET_ERROR; wr_received := 0;
           wr_InternalHigh := 0 |},
        {| last_error := WSA_IO_PENDING; tick := tick p + 1;
           host := host p |});
     WSAGetOverlappedResult_orig := fun _ _ _ _ _ p => (1, later p) |}.

(** A pass-through rule: matched, with the address [INADDR_ANY]. *)
Definition demo_any : sockaddr_in :=
  {| sin_family := AF_INET; sin_port := 0; sin_addr := INADDR_ANY;
     sin_zero := repeat 0 8 |}.

(** * Properties of the meter *)

Lemma u32_small z : 0 <= z < 2 ^ 32 -> u32 z = z.
Proof. intros H. unfold u32. apply Z.mod_small. exact H. Qed.

Lemma s64_small z : - 2 ^ 63 <= z < 2 ^ 63 -> s64 z = z.
Proof. intros H. unfold s64. rewrite Z.mod_small; lia. Qed.

Lemma counted_nonneg bytes : valid_count bytes -> 0 <= counted bytes.
Proof.
  unfold valid_count, counted. intros [->|H]; [reflexivity|].
  destruct (bytes =? SOCKET_ERROR); lia.
Qed.

Lemma sum_counted_nonneg calls :
  (forall c, In c calls -> valid_count (fst c)) -> 0 <= sum_counted calls.
Proof.
  induction calls as [|c calls IH]; intros Hall; cbn; [lia|].
  assert (0 <= counted (fst c)) by (apply counted_nonneg, Hall; now left).
  assert (0 <= sum_counted calls).
  { apply IH. intros c' Hin. apply Hall. now right. }
  unfold sum_counted in *. lia.
Qed.

(** A tick either leaves the meter alone or moves the window into the
    total; the two counters together are the same afterwards. *)
Lemma newTick_sum now m :
  0 <= m_total m -> 0 <= m_currentBytes m ->
  m_total m + m_currentBytes m < 2 ^ 63 ->
  m_total (newTick now m) + m_currentBytes (newTick now m)
  = m_total m + m_currentBytes m
  /\ 0 <= m_total (newTick now m)
  /\ 0 <= m_currentBytes (newTick now m).
Proof.
  intros Ht Hc Hlt. unfold newTick.
  destruct (u32 (now - m_now m) <? 1); cbn.
  - lia.
  - rewrite s64_small by lia. lia.
Qed.

Lemma Meter_add_sum bytes now m :
  valid_count bytes ->
  0 <= m_total m -> 0 <= m_currentBytes m ->
  m_total m + m_currentBytes m < 2 ^ 63 ->
  m_currentBytes (newTick now m) + counted bytes < 2 ^ 32 ->
  m_total (Meter_add bytes now m) + m_currentBytes (Meter_add bytes now m)
  = m_total m + m_currentBytes m + counted bytes
  /\ 0 <= m_total (Meter_add bytes now m)
  /\ 0 <= m_currentBytes (Meter_add bytes now m).
Proof.
  intros Hv Ht Hc Hlt Hwin.
  pose proof (counted_nonneg bytes Hv) as Hb.
  destruct (newTick_sum now m Ht Hc Hlt) as (Hs & Ht' & Hc').
  unfold Meter_add. fold (counted bytes). cbn.
  rewrite u32_small by lia. lia.
Qed.

Lemma Meter_adds_sum calls : forall m,
  (forall c, In c calls -> valid_count (fst c)) ->
  0 <= m_total m -> 0 <= m_currentBytes m ->
  fits calls m ->
  m_total (Meter_adds calls m) + m_currentBytes (Meter_adds calls m)
  = m_total m + m_currentBytes m + sum_counted calls
  /\ 0 <= m_total (Meter_adds calls m)
  /\ 0 <= m_currentBytes (Meter_adds calls m).
Proof.
  induction calls as [|c calls IH]; intros m Hall Ht Hc Hfit.
  - cbn. lia.
  - destruct Hfit as (Hlt & Hwin & Hfit).
    assert (Hv : valid_count (fst c)) by (apply Hall; now left).
    assert (Hrest : forall c', In c' calls -> valid_count (fst c')).
    { intros c' Hin. apply Hall. now right. }
    change (sum_counted (c :: calls))
      with (counted (fst c) + sum_counted calls).
    destruct (Meter_add_sum (fst c) (snd c) m Hv Ht Hc Hlt Hwin)
      as (Hs & Ht' & Hc').
    change (Meter_adds (c :: calls) m)
      with (Meter_adds calls (Meter_add (fst c) (snd c) m)).
    destruct (IH (Meter_add (fst c) (snd c) m) Hrest Ht' Hc' Hfit)
      as (Hs2 & Ht2 & Hc2).
    lia.
Qed.

(** Counts whose sum stays under 2^32 overflow nothing. *)
Lemma fits_small calls : forall m,
  (forall c, In c calls -> valid_count (fst c)) ->
  0 <= m_total m -> 0 <= m_currentBytes m ->
  m_total m + m_currentBytes m + sum_counted calls < 2 ^ 32 ->
  fits calls m.
Proof.
  induction calls as [|c calls IH]; intros m Hall Ht Hc Hlt; cbn [fits].
  - exact I.
  - assert (Hv : valid_count (fst c)) by (apply Hall; now left).
    assert (Hrest : forall c', In c' calls -> valid_count (fst c')).
    { intros c' Hin. apply Hall. now right. }
    pose proof (counted_nonneg _ Hv) as Hb.
    pose proof (sum_counted_nonneg _ Hrest) as Hr.
    change (sum_counted (c :: calls))
      with (counted (fst c) + sum_counted calls) in Hlt.
    destruct (newTick_sum (snd c) m Ht Hc ltac:(lia)) as (Hs & Ht' & Hc').
    destruct (Meter_add_sum (fst c) (snd c) m Hv Ht Hc ltac:(lia)
                             ltac:(lia)) as (Hs2 & Ht2 & Hc2).
    split; [lia|]. split; [lia|].
    apply IH; auto. lia.
Qed.

(** C3, as written, fails: the total only takes up a window when a later
    call finds the tick advanced. *)
Lemma meter_total_lags_behind :
  m_total (Meter_adds [(100, 1001); (50, 1002)] (Meter_new 1000))
  <> sum_counted [(100, 1001); (50, 1002)].
Proof. vm_compute. discriminate. Qed.

(** C3, amended.  After any run of [+=] calls in which no counter
    overflows, the cumulative total and the current window together hold
    the sum of the byte counts passed in, a failed operation counting as
    zero; the total alone never exceeds that sum. *)
Theorem meter_total_and_window (calls : list (Z * Z)) (t0 : Z) :
  (forall c, In c calls -> valid_count (fst c)) ->
  fits calls (Meter_new t0) ->
  m_total (Meter_adds calls (Meter_new t0))
  + m_currentBytes (Meter_adds calls (Meter_new t0))
  = sum_counted calls
  /\ 0 <= m_total (Meter_adds calls (Meter_new t0)) <= sum_counted calls.
Proof.
  intros Hall Hfit.
  destruct (Meter_adds_sum calls (Meter_new t0) Hall) as (Hs & Ht & Hc);
    cbn; try lia; [exact Hfit|].
  cbn in Hs. lia.
Qed.

Lemma meter_total_and_window_witness :
  fits [(100, 1001); (-1, 1001); (50, 1002)] (Meter_new 1000)
  /\ m_total (Meter_adds [(100, 1001); (-1, 1001); (50, 1002)]
                (Meter_new 1000))
     + m_currentBytes (Meter_adds [(100, 1001); (-1, 1001); (50, 1002)]
                         (Meter_new 1000))
     = 150.
Proof.
  assert (Hfit : fits [(100, 1001); (-1, 1001); (50, 1002)] (Meter_new 1000))
    by (vm_compute; repeat split).
  split; [exact Hfit|].
  apply (meter_total_and_window [(100, 1001); (-1, 1001); (50, 1002)] 1000).
  - intros c Hin. unfold valid_count. cbn in Hin.
    destruct Hin as [<-|[<-|[<-|[]]]]; cbn;
      [right; lia | left; reflexivity | right; lia].
  - exact Hfit.
Defined.

(** * Properties of the handlers *)

Section HandlerProperties.

Context {Host FilterRules : Type}.
Context {winsock : Winsock Host} {engine : RuleEngine FilterRules}.
Context {layout : Layout}.

Implicit Types (w : @World Host FilterRules) (name : sockaddr).

Lemma connectHook_forward s name namelen w :
  sa_family name <> AF_INET ->
  connectHook s name namelen w = connectResume s name namelen w.
Proof.
  intros Hfam. unfold connectHook.
  destruct (sa_family name =? AF_INET) eqn:E.
  - apply Z.eqb_eq in E. contradiction.
  - reflexivity.
Qed.

Lemma connectResume_resumed s name namelen w :
  resumed (snd (connectResume s name namelen w))
  = resumed w ++ [Call_connect s name namelen].
Proof.
  unfold connectResume.
  destruct (connect_orig s name namelen (proc w)); reflexivity.
Qed.

Lemma connectHook_deny s name namelen w replace :
  sa_family name = AF_INET ->
  rules_match_addr (g_rules w) name 0 = (true, replace) ->
  deny_decision replace ->
  fst (connectHook s name namelen w) = SOCKET_ERROR
  /\ last_error (proc (snd (connectHook s name namelen w)))
     = WSAECONNREFUSED
  /\ resumed (snd (connectHook s name namelen w)) = resumed w.
Proof.
  intros Hfam Hmatch Hdeny. unfold connectHook.
  apply Z.eqb_eq in Hfam. rewrite Hfam, Hmatch. cbn [negb orb fst snd].
  destruct replace as [r|]; cbn in Hdeny.
  - apply Z.eqb_eq in Hdeny. rewrite Hdeny. repeat split.
  - repeat split.
Qed.

Lemma gethostHook_deny host_name w replace :
  rules_match_name (g_rules w) host_name = (true, replace) ->
  deny_decision replace ->
  fst (gethostHook host_name w) = 0
  /\ last_error (proc (snd (gethostHook host_name w)))
     = WSAHOST_NOT_FOUND
  /\ resumed (snd (gethostHook host_name w)) = resumed w.
Proof.
  intros Hmatch Hdeny. unfold gethostHook.
  rewrite Hmatch. cbn [negb orb fst snd].
  destruct replace as [r|]; cbn in Hdeny.
  - rewrite Hdeny. cbn. repeat split.
  - repeat split.
Qed.

(** C1.  A matched redirect [(ip1, port1)] that is not the deny sentinel
    makes [connectHook] forward to the original [connect] the
    destination [(ip1 if ip1 <> 0 else ip0, port1 if port1 <> 0 else
    port0)] with the caller's family, in a temporary of its own. *)
Theorem connect_redirect_composition s name namelen w replace :
  sa_family name = AF_INET ->
  rules_match_addr (g_rules w) name 0 = (true, Some replace) ->
  sin_addr replace <> INADDR_NONE ->
  let dest :=
    {| sin_family := sa_family name;
       sin_port := if sin_port replace =? 0
                   then sin_port name else sin_port replace;
       sin_addr := if sin_addr replace =? 0
                   then sin_addr name else sin_addr replace;
       sin_zero := temp_sin_zero |} in
  connectHook s name namelen w
  = connectResume s dest sizeof_sockaddr_in
      (OutputDebugStringA "Connect redirected\r\n" w)
  /\ resumed (snd (connectHook s name namelen w))
     = resumed w ++ [Call_connect s dest sizeof_sockaddr_in].
Proof.
  intros Hfam Hmatch Hnone dest.
  assert (Hgo : connectHook s name namelen w
                = connectResume s dest sizeof_sockaddr_in
                    (OutputDebugStringA "Connect redirected\r\n" w)).
  { unfold connectHook. rewrite Hmatch.
    apply Z.eqb_eq in Hfam. rewrite Hfam. cbn [negb orb fst snd].
    apply Z.eqb_neq in Hnone. rewrite Hnone.
    subst dest. unfold sa_family.
    destruct (sin_port replace =? 0), (sin_addr replace =? 0);
      reflexivity. }
  split; [exact Hgo|].
  rewrite Hgo, connectResume_resumed. reflexivity.
Qed.

(** C2.  A matched deny decision never reaches the original: [connect]
    returns [SOCKET_ERROR] with last error [WSAECONNREFUSED], and
    [gethostbyname] returns null with last error [WSAHOST_NOT_FOUND]. *)
Theorem deny_never_resumes :
  (forall s name namelen w replace,
      sa_family name = AF_INET ->
      rules_match_addr (g_rules w) name 0 = (true, replace) ->
      deny_decision replace ->
      fst (connectHook s name namelen w) = SOCKET_ERROR
      /\ last_error (proc (snd (connectHook s name namelen w)))
         = WSAECONNREFUSED
      /\ resumed (snd (connectHook s name namelen w)) = resumed w)
  /\ (forall host_name w replace,
      rules_match_name (g_rules w) host_name = (true, replace) ->
      deny_decision replace ->
      fst (gethostHook host_name w) = 0
      /\ last_error (proc (snd (gethostHook host_name w)))
         = WSAHOST_NOT_FOUND
      /\ resumed (snd (gethostHook host_name w)) = resumed w).
Proof.
  split.
  - intros. eapply connectHook_deny; eassumption.
  - intros. eapply gethostHook_deny; eassumption.
Qed.

(** C9.  A destination whose family is not [AF_INET] goes to the
    original [connect] as it came, and the result comes back as it is,
    whatever the rule set holds. *)
Theorem connect_non_ipv4_passthrough s name namelen w :
  sa_family name <> AF_INET ->
  connectHook s name namelen w
  = (fst (connect_orig s name namelen (proc w)),
     resume (Call_connect s name namelen)
            (snd (connect_orig s name namelen (proc w))) w).
Proof.
  intros Hfam. rewrite connectHook_forward by exact Hfam.
  unfold connectResume.
  destruct (connect_orig s name namelen (proc w)); reflexivity.
Qed.

End HandlerProperties.

Lemma connect_redirect_composition_witness :
  sa_family demo_dest = AF_INET
  /\ sin_addr demo_redirect <> INADDR_NONE
  /\ resumed (snd (connectHook (winsock := demo_winsock)
                     (engine := demo_engine) (layout := demo_layout)
                     7 demo_dest 16 (demo_world (true, Some demo_redirect))))
     = [Call_connect 7
          {| sin_family := AF_INET; sin_port := 443; sin_addr := 0x0A000005;
             sin_zero := repeat 0xCC 8 |} 16].
Proof.
  split; [reflexivity|]. split; [discriminate|].
  apply (proj2 (@connect_redirect_composition unit Verdict demo_winsock
                  demo_engine demo_layout 7 demo_dest 16
                  (demo_world (true, Some demo_redirect)) demo_redirect
                  eq_refl eq_refl ltac:(discriminate))).
Defined.

Lemma deny_never_resumes_witness :
  (fst (connectHook (winsock := demo_winsock) (engine := demo_engine)
          (layout := demo_layout) 7 demo_dest 16
          (demo_world (true, Some demo_none))) = SOCKET_ERROR
   /\ last_error (proc (snd (connectHook (winsock := demo_winsock)
          (engine := demo_engine) (layout := demo_layout) 7 demo_dest 16
          (demo_world (true, Some demo_none))))) = WSAECONNREFUSED
   /\ resumed (snd (connectHook (winsock := demo_winsock)
          (engine := demo_engine) (layout := demo_layout) 7 demo_dest 16
          (demo_world (true, Some demo_none)))) = [])
  /\ (fst (gethostHook (winsock := demo_winsock) (engine := demo_engine)
             (layout := demo_layout) "content1.steampowered.com"
             (demo_world (true, None))) = 0
      /\ last_error (proc (snd (gethostHook (winsock := demo_winsock)
             (engine := demo_engine) (layout := demo_layout)
             "content1.steampowered.com" (demo_world (true, None)))))
         = WSAHOST_NOT_FOUND
      /\ resumed (snd (gethostHook (winsock := demo_winsock)
             (engine := demo_engine) (layout := demo_layout)
             "content1.steampowered.com" (demo_world (true, None)))) = []).
Proof.
  destruct (@deny_never_resumes unit Verdict demo_winsock demo_engine
              demo_layout) as [Hconnect Hgethost].
  split.
  - apply (Hconnect 7 demo_dest 16 (demo_world (true, Some demo_none))
             (Some demo_none)); [reflexivity | reflexivity | reflexivity].
  - apply (Hgethost "content1.steampowered.com"%string
             (demo_world (true, None)) None);
      [reflexivity | exact I].
Defined.

Lemma connect_non_ipv4_passthrough_witness :
  sa_family demo_dest6 <> AF_INET
  /\ connectHook (winsock := demo_winsock) (engine := demo_engine)
       (layout := demo_layout) 7 demo_dest6 28
       (demo_world (true, Some demo_none))
     = (0, resume (Call_connect 7 demo_dest6 28) (later demo_proc)
                  (demo_world (true, Some demo_none))).
Proof.
  split; [discriminate|].
  apply (@connect_non_ipv4_passthrough unit Verdict demo_winsock demo_engine
           demo_layout 7 demo_dest6 28 (demo_world (true, Some demo_none))).
  discriminate.
Defined.

Section MeteringProperties.

Context {Host FilterRules : Type}.
Context {winsock : Winsock Host}.

Implicit Types (w : @World Host FilterRules).

(** [recvHook] meters whatever the original returns: [flags] takes no
    part in it. *)
Lemma recvHook_meter s buf len flags w :
  g_meter (snd (recvHook s buf len flags w))
  = Meter_add (to_int (fst (recv_orig s buf len flags (proc w))))
              (tick (snd (recv_orig s buf len flags (proc w))))
              (g_meter w).
Proof.
  unfold recvHook, recvResume.
  destruct (recv_orig s buf len flags (proc w)); reflexivity.
Qed.

Lemma recvfromHook_meter s buf len flags from fromLen w :
  g_meter (snd (recvfromHook s buf len flags from fromLen w))
  = Meter_add
      (to_int (fst (recvfrom_orig s buf len flags from fromLen (proc w))))
      (tick (snd (recvfrom_orig s buf len flags from fromLen (proc w))))
      (g_meter w).
Proof.
  unfold recvfromHook, recvfromResume.
  destruct (recvfrom_orig s buf len flags from fromLen (proc w));
    reflexivity.
Qed.

(** X5.  The plain [WSARecv] path leaves the meter alone on a peek: a
    call with no overlapped block and no completion routine whose flags
    carry [MSG_PEEK] is forwarded and not metered. *)
Lemma wsaRecvHook_peek_excluded s buffers count received flags flags_in w :
  flags <> 0 ->
  Z.land flags_in MSG_PEEK <> 0 ->
  g_meter (snd (wsaRecvHook s buffers count received flags 0 0 flags_in w))
  = g_meter w.
Proof.
  intros Hflags Hpeek. unfold wsaRecvHook, wsaRecvResume. cbn.
  apply Z.eqb_neq in Hflags, Hpeek. rewrite Hflags, Hpeek. cbn.
  destruct (WSARecv_orig s buffers count received flags 0 0 (proc w)).
  rewrite andb_false_r. reflexivity.
Qed.

(** X6.  An overlapped [WSARecv] that succeeds at once is metered by the
    [InternalHigh] of its completion block. *)
Lemma wsaRecvHook_sync_completion s buffers count received flags
    overlapped handler flags_in w :
  overlapped <> 0 ->
  let out :=
    WSARecv_orig s buffers count received flags overlapped handler
                 (proc w) in
  wr_result (fst out) = 0 ->
  g_meter (snd (wsaRecvHook s buffers count received flags overlapped
                            handler flags_in w))
  = Meter_add (to_int (wr_InternalHigh (fst out))) (tick (snd out))
              (g_meter w).
Proof.
  intros Hov out Hres. unfold wsaRecvHook, wsaRecvResume.
  apply Z.eqb_neq in Hov. rewrite Hov. cbn.
  subst out.
  destruct (WSARecv_orig s buffers count received flags overlapped handler
                         (proc w)) as [o p].
  cbn in *. rewrite Hres. reflexivity.
Qed.

End MeteringProperties.

(** C4.  [recv] called with [MSG_PEEK] is metered like any other: against
    a host that returns 100 bytes per call, a first peek puts 100 bytes
    into the window, and a second peek moves them into the cumulative
    total. *)
Theorem recv_peek_is_metered :
  let w0 := demo_world (false, None) in
  let w1 := snd (recvHook (winsock := demo_winsock) 7 0 4096 MSG_PEEK w0) in
  let w2 := snd (recvHook (winsock := demo_winsock) 7 0 4096 MSG_PEEK w1) in
  m_currentBytes (g_meter w0) = 0
  /\ m_currentBytes (g_meter w1) = 100
  /\ m_total (g_meter w1) = 0
  /\ m_total (g_meter w2) = 100.
Proof. vm_compute. repeat split. Qed.

(** * Properties of the patcher *)

Lemma store_same m a v : store m a v a = v.
Proof. unfold store. now rewrite Z.eqb_refl. Qed.

Lemma store_other m a v x : x <> a -> store m a v x = m x.
Proof. intros H. unfold store. apply Z.eqb_neq in H. now rewrite H. Qed.

Lemma memcpy_to_outside src : forall m dest a,
  a < dest \/ dest + Z.of_nat (List.length src) <= a ->
  memcpy_to m dest src a = m a.
Proof.
  induction src as [|b src IH]; intros m dest a H; cbn [memcpy_to].
  - reflexivity.
  - cbn [List.length] in H. rewrite IH by lia. apply store_other. lia.
Qed.

Lemma memcpy_to_inside src : forall m dest a,
  dest <= a < dest + Z.of_nat (List.length src) ->
  memcpy_to m dest src a = nth (Z.to_nat (a - dest)) src 0.
Proof.
  induction src as [|b src IH]; intros m dest a H; cbn [List.length] in H.
  - lia.
  - cbn [memcpy_to]. destruct (Z.eq_dec a dest) as [->|Hne].
    + rewrite memcpy_to_outside by lia. rewrite store_same.
      now rewrite Z.sub_diag.
    + rewrite IH by lia.
      replace (Z.to_nat (a - dest)) with (S (Z.to_nat (a - (dest + 1))))
        by lia.
      reflexivity.
Qed.

Lemma read_bytes_length m : forall n p, List.length (read_bytes m p n) = n.
Proof. induction n; intros p; cbn; [reflexivity | now rewrite IHn]. Qed.

Lemma read_bytes_nth m : forall n p i,
  (i < n)%nat -> nth i (read_bytes m p n) 0 = m (p + Z.of_nat i).
Proof.
  induction n as [|n IH]; intros p i H; [lia|].
  destruct i as [|i]; cbn [read_bytes nth].
  - f_equal. lia.
  - rewrite IH by lia. f_equal. lia.
Qed.

Lemma nth_firstn_lt {A} (l : list A) d : forall n i,
  (i < n)%nat -> nth i (firstn n l) d = nth i l d.
Proof.
  induction l as [|x l IH]; intros n i H.
  - now rewrite firstn_nil.
  - destruct n as [|n]; [lia|]. destruct i as [|i]; cbn; [reflexivity|].
    apply IH. lia.
Qed.

Lemma in_patch_dec p a : {in_patch p a} + {~ in_patch p a}.
Proof.
  unfold in_patch.
  destruct (Z_le_dec (p - 5) a); [destruct (Z_lt_dec a (p + 2))|];
    (left; lia) || (right; lia).
Qed.

(** What the detour writes lies in the patch area. *)
Lemma detour_bytes_outside c data hook a :
  ~ in_patch data a ->
  write16 (memcpy_to (store c (data - 5) JMP_LONG) (data - 4)
                     (writeOffset (u32 (hook - data))))
          data JMP_SHORT_MINUS5 a
  = c a.
Proof.
  unfold in_patch. intros H. unfold write16.
  rewrite !store_other by lia.
  rewrite memcpy_to_outside by (cbn; lia).
  apply store_other. lia.
Qed.

Lemma firstn_read_bytes m : forall n k p,
  (k <= n)%nat -> firstn k (read_bytes m p n) = read_bytes m p k.
Proof.
  induction n as [|n IH]; intros k p H.
  - replace k with 0%nat by lia. reflexivity.
  - destruct k as [|k]; [reflexivity|].
    cbn [read_bytes firstn]. f_equal. apply IH. lia.
Qed.

Lemma read_bytes_ext m m' : forall n p,
  (forall a, p <= a < p + Z.of_nat n -> m a = m' a) ->
  read_bytes m p n = read_bytes m' p n.
Proof.
  induction n as [|n IH]; intros p H; [reflexivity|].
  cbn [read_bytes]. f_equal.
  - apply H. lia.
  - apply IH. intros a Ha. apply H. lia.
Qed.

(** Restoring the seven saved bytes over the patch area. *)
Lemma restore_inside c c0 p a :
  in_patch p a ->
  memcpy_to c (p - 5) (read_bytes c0 (p - 5) 7) a = c0 a.
Proof.
  unfold in_patch. intros H.
  rewrite memcpy_to_inside by (rewrite read_bytes_length; lia).
  rewrite read_bytes_nth by lia. f_equal. lia.
Qed.

Lemma restore_outside c save p a :
  ~ in_patch p a ->
  memcpy_to c (p - 5) (firstn 7 save) a = c a.
Proof.
  unfold in_patch. intros H. apply memcpy_to_outside.
  pose proof (firstn_le_length 7 save). lia.
Qed.

(** Components of an equation between tuples, taken without computing
    inside them. *)
Ltac triple E :=
  let E1 := fresh E in
  let E2 := fresh E in
  let E3 := fresh E in
  pose proof (f_equal (fun t => fst (fst t)) E) as E1;
  pose proof (f_equal (fun t => snd (fst t)) E) as E2;
  pose proof (f_equal (fun t => snd t) E) as E3;
  cbn [fst snd] in E1, E2, E3; clear E.

Ltac quad E :=
  let E1 := fresh E in
  let E2 := fresh E in
  let E3 := fresh E in
  let E4 := fresh E in
  pose proof (f_equal (fun t => fst (fst (fst t))) E) as E1;
  pose proof (f_equal (fun t => snd (fst (fst t))) E) as E2;
  pose proof (f_equal (fun t => snd (fst t)) E) as E3;
  pose proof (f_equal (fun t => snd t) E) as E4;
  cbn [fst snd] in E1, E2, E3, E4; clear E.

Section PatcherProperties.

Context {Sys FilterRules : Type}.
Context {win32 : Win32 Sys} {engine : RuleEngine FilterRules}.
Context {layout : Layout}.

Implicit Types (st : @Dll Sys FilterRules) (h : ApiHook) (c : Memory).

Lemma write_detour_spec data hk h c s ok h' c' s' :
  write_detour data hk h c s = (ok, h', c', s') ->
  h' = h
  /\ (ok = false -> c' = c)
  /\ (forall a, ~ in_patch data a -> c' a = c a).
Proof.
  unfold write_detour.
  destruct (VirtualProtect (data - 5) 7 PAGE_EXECUTE_READWRITE s)
    as [[|] s1]; cbn [negb]; intros E; quad E; subst.
  - split; [reflexivity|]. split; [discriminate|].
    intros a Ha. now apply detour_bytes_outside.
  - repeat split; reflexivity.
Qed.

Lemma makeThunk_spec thunk data n h c s r h' s' :
  makeThunk thunk data n h c s = (r, h', s') ->
  m_original h' = m_original h /\ m_save h' = m_save h
  /\ m_hook h' = m_hook h
  /\ (r = thunk
      \/ r = 0
         /\ fst (VirtualProtect thunk 16 PAGE_EXECUTE_READWRITE s) = false).
Proof.
  unfold makeThunk.
  destruct (VirtualProtect thunk 16 PAGE_EXECUTE_READWRITE s) as [[|] s1];
    cbn [negb]; intros E; triple E; subst; cbn [fst];
    unfold with_thunk; cbn [m_original m_save m_hook]; intuition.
Qed.

(** What a successful [attach] leaves behind. *)
Lemma ApiHook_attach_true thunk p hk h c s h' c' s' :
  ApiHook_attach thunk p hk h c s = (true, h', c', s') ->
  p <> 0
  /\ m_original h' = p
  /\ m_hook h' = hk
  /\ m_save h' = read_bytes c (p - 5) 8
  /\ (m_resume h' = p + 2
      \/ m_resume h' = thunk
      \/ m_resume h' = 0
         /\ fst (VirtualProtect thunk 16 PAGE_EXECUTE_READWRITE s) = false)
  /\ (forall a, ~ in_patch p a -> c' a = c a).
Proof.
  unfold ApiHook_attach.
  destruct (p =? 0) eqn:Ep; [discriminate|]. apply Z.eqb_neq in Ep.
  destruct (read16 c p =? MOV_EDI_EDI).
  - intros E. apply write_detour_spec in E. destruct E as (-> & _ & Hc).
    cbn. intuition.
  - destruct (c p =? PUSH_IMM8); [|discriminate].
    destruct (makeThunk thunk p 2 _ c s) as [[r h1] s1] eqn:Et.
    apply makeThunk_spec in Et. cbn in Et.
    destruct Et as (Ho & Hs & Hh & Hr).
    intros E. apply write_detour_spec in E. destruct E as (-> & _ & Hc).
    cbn. intuition.
Qed.

(** A failed [attach] writes nothing to memory. *)
Lemma ApiHook_attach_false thunk p hk h c s h' c' s' :
  ApiHook_attach thunk p hk h c s = (false, h', c', s') -> c' = c.
Proof.
  unfold ApiHook_attach.
  destruct (p =? 0); [now inversion 1|].
  destruct (read16 c p =? MOV_EDI_EDI).
  - intros E. apply write_detour_spec in E. now apply E.
  - destruct (c p =? PUSH_IMM8); [|now inversion 1].
    destruct (makeThunk thunk p 2 _ c s) as [[r h1] s1].
    intros E. apply write_detour_spec in E. now apply E.
Qed.

(** [unhook] of a record taken by a successful [attach] that left a
    resume address puts every byte back. *)
Lemma unhook_after_attach thunk p hk h c s h' c' s' :
  ApiHook_attach thunk p hk h c s = (true, h', c', s') ->
  m_resume h' <> 0 ->
  forall a, snd (ApiHook_unhook h' c') a = c a.
Proof.
  intros Hat Hres a.
  apply ApiHook_attach_true in Hat.
  destruct Hat as (Hp & Ho & _ & Hs & _ & Hc).
  unfold ApiHook_unhook. apply Z.eqb_neq in Hres. rewrite Hres.
  cbn [snd]. rewrite Ho, Hs, firstn_read_bytes by lia.
  destruct (in_patch_dec p a) as [Hin|Hout].
  - now apply restore_inside.
  - rewrite <- (firstn_read_bytes c 8 7) by lia.
    rewrite restore_outside by exact Hout. now apply Hc.
Qed.

Lemma ApiHook_unhook_null h c :
  m_resume h = 0 -> ApiHook_unhook h c = (h, c).
Proof. intros H. unfold ApiHook_unhook. now rewrite H. Qed.

End PatcherProperties.

(** * Properties of the life cycle *)

Lemma HookId_eqb_spec a b : reflect (a = b) (HookId_eqb a b).
Proof. destruct a, b; constructor; congruence. Qed.

Lemma get_set_hook id id' h hs :
  get_hook id' (set_hook id h hs)
  = if HookId_eqb id' id then h else get_hook id' hs.
Proof. destruct id, id'; reflexivity. Qed.

Section LifecycleProperties.

Context {Sys FilterRules : Type}.
Context {win32 : Win32 Sys} {engine : RuleEngine FilterRules}.
Context {layout : Layout}.

Implicit Types (st : @Dll Sys FilterRules) (h : ApiHook) (c : Memory).

Lemma hook_with_hook id id' h st :
  hook id' (with_hook id h st)
  = if HookId_eqb id' id then h else hook id' st.
Proof. apply get_set_hook. Qed.

Lemma hook_with_hook_same id h st : hook id (with_hook id h st) = h.
Proof.
  rewrite hook_with_hook. now destruct (HookId_eqb_spec id id).
Qed.

Lemma hook_with_hook_other id id' h st :
  id' <> id -> hook id' (with_hook id h st) = hook id' st.
Proof.
  intros H. rewrite hook_with_hook.
  now destruct (HookId_eqb_spec id' id).
Qed.

(** *** [attach] on a global hook object *)

Lemma attach_other id p hk st id' :
  id' <> id -> hook id' (snd (attach id p hk st)) = hook id' st.
Proof.
  intros H. unfold attach.
  destruct (ApiHook_attach _ _ _ _ _ _) as [[[ok h] c] s]. cbn [snd].
  now rewrite hook_with_hook_other.
Qed.

Lemma attach_false id p hk st :
  fst (attach id p hk st) = false ->
  code (snd (attach id p hk st)) = code st.
Proof.
  unfold attach.
  destruct (ApiHook_attach _ _ _ _ _ _) as [[[ok h] c] s] eqn:E.
  cbn. intros ->. now apply ApiHook_attach_false in E.
Qed.

Lemma attach_true id p hk st :
  fst (attach id p hk st) = true ->
  let h' := hook id (snd (attach id p hk st)) in
  p <> 0
  /\ m_original h' = p
  /\ m_save h' = read_bytes (code st) (p - 5) 8
  /\ (m_resume h' = p + 2
      \/ m_resume h' = thunk_addr id
      \/ m_resume h' = 0
         /\ fst (VirtualProtect (thunk_addr id) 16 PAGE_EXECUTE_READWRITE
                                (sys st)) = false)
  /\ (forall a, ~ in_patch p a ->
                code (snd (attach id p hk st)) a = code st a).
Proof.
  unfold attach.
  destruct (ApiHook_attach _ _ _ _ _ _) as [[[ok h] c] s] eqn:E.
  cbn [fst snd]. intros ->. rewrite hook_with_hook_same.
  apply ApiHook_attach_true in E. cbn. intuition.
Qed.

(** *** [attach] by export name *)

Lemma attach_export_other id hk lib name st id' :
  id' <> id ->
  hook id' (snd (attach_export id hk lib name st)) = hook id' st.
Proof.
  intros H. unfold attach_export.
  destruct (GetProcAddress lib name =? 0).
  - cbn [snd]. now rewrite hook_with_hook_other.
  - pose proof (attach_other id (GetProcAddress lib name) hk st id' H)
      as Ho.
    destruct (attach id (GetProcAddress lib name) hk st) as [[|] st1];
      cbn [negb snd] in *; [exact Ho|].
    now rewrite hook_with_hook_other.
Qed.

Lemma attach_export_false id hk lib name st :
  fst (attach_export id hk lib name st) = false ->
  code (snd (attach_export id hk lib name st)) = code st
  /\ m_resume (hook id (snd (attach_export id hk lib name st))) = 0.
Proof.
  unfold attach_export.
  destruct (GetProcAddress lib name =? 0).
  - cbn [fst snd]. intros _. rewrite hook_with_hook_same.
    split; reflexivity.
  - pose proof (attach_false id (GetProcAddress lib name) hk st) as Hc.
    destruct (attach id (GetProcAddress lib name) hk st) as [[|] st1];
      cbn [negb fst snd] in *; [discriminate|].
    intros _. rewrite hook_with_hook_same.
    split; [now apply Hc | reflexivity].
Qed.

Lemma attach_export_true id hk lib name st :
  fst (attach_export id hk lib name st) = true ->
  let p := GetProcAddress lib name in
  let h' := hook id (snd (attach_export id hk lib name st)) in
  p <> 0
  /\ m_original h' = p
  /\ m_save h' = read_bytes (code st) (p - 5) 8
  /\ (m_resume h' = p + 2
      \/ m_resume h' = thunk_addr id
      \/ m_resume h' = 0
         /\ fst (VirtualProtect (thunk_addr id) 16 PAGE_EXECUTE_READWRITE
                                (sys st)) = false)
  /\ (forall a, ~ in_patch p a ->
                code (snd (attach_export id hk lib name st)) a
                = code st a).
Proof.
  unfold attach_export.
  destruct (GetProcAddress lib name =? 0); [discriminate|].
  pose proof (attach_true id (GetProcAddress lib name) hk st) as Ht.
  destruct (attach id (GetProcAddress lib name) hk st) as [[|] st1];
    cbn [negb fst snd] in *; [|discriminate].
  intros _. now apply Ht.
Qed.

(** *** [unhook] *)

Lemma unhook_null id st :
  m_resume (hook id st) = 0 ->
  code (unhook id st) = code st
  /\ forall id', hook id' (unhook id st) = hook id' st.
Proof.
  intros H. unfold unhook. rewrite ApiHook_unhook_null by exact H.
  split; [reflexivity|].
  intros id'. rewrite hook_with_hook.
  destruct (HookId_eqb_spec id' id) as [->|]; reflexivity.
Qed.

Lemma unhook_resume id st id' :
  m_resume (hook id' (unhook id st))
  = if HookId_eqb id' id then 0 else m_resume (hook id' st).
Proof.
  unfold unhook, ApiHook_unhook.
  destruct (m_resume (hook id st) =? 0) eqn:E;
    rewrite hook_with_hook;
    destruct (HookId_eqb_spec id' id) as [->|]; try reflexivity.
  now apply Z.eqb_eq in E.
Qed.

Lemma unhook_other id st id' :
  id' <> id -> hook id' (unhook id st) = hook id' st.
Proof.
  intros H. unfold unhook.
  destruct (ApiHook_unhook _ _). now rewrite hook_with_hook_other.
Qed.

Lemma unhook_code id st :
  code (unhook id st)
  = if m_resume (hook id st) =? 0 then code st
    else memcpy_to (code st) (m_original (hook id st) - 5)
                   (firstn 7 (m_save (hook id st))).
Proof.
  unfold unhook, ApiHook_unhook.
  destruct (m_resume (hook id st) =? 0); reflexivity.
Qed.

Lemma unhook_frame id st :
  rules (unhook id st) = rules st
  /\ g_instance (unhook id st) = g_instance st
  /\ sys (unhook id st) = sys st
  /\ dbg (unhook id st) = dbg st.
Proof.
  unfold unhook. destruct (ApiHook_unhook _ _). repeat split.
Qed.

(** Unhooking one record keeps the rest restorable. *)
Lemma Restorable_unhook m0 id st :
  Restorable m0 st -> Restorable m0 (unhook id st).
Proof.
  intros [Hsave Hrest]. split.
  - intros id' Hres. rewrite unhook_resume in Hres.
    destruct (HookId_eqb_spec id' id) as [Heq|Hne]; [congruence|].
    rewrite unhook_other by exact Hne. now apply Hsave.
  - intros a Hout. rewrite unhook_code.
    destruct (m_resume (hook id st) =? 0) eqn:E.
    + apply Hrest. intros id' Hres.
      destruct (HookId_eqb_spec id' id) as [Heq|Hne]; [subst id'|].
      * apply Z.eqb_eq in E. congruence.
      * specialize (Hout id'). rewrite unhook_resume in Hout.
        destruct (HookId_eqb_spec id' id); [congruence|].
        rewrite unhook_other in Hout by exact Hne. now apply Hout.
    + apply Z.eqb_neq in E. rewrite (Hsave id E).
      destruct (in_patch_dec (m_original (hook id st)) a) as [Hin|Hno].
      * now apply restore_inside.
      * rewrite <- (firstn_read_bytes m0 7 7) by lia.
        rewrite restore_outside by exact Hno.
        apply Hrest. intros id' Hres.
        destruct (HookId_eqb_spec id' id) as [Heq|Hne]; [subst id'; exact Hno|].
        specialize (Hout id'). rewrite unhook_resume in Hout.
        destruct (HookId_eqb_spec id' id); [congruence|].
        rewrite unhook_other in Hout by exact Hne. now apply Hout.
Qed.

(** *** [unhookAll] *)

Lemma unhookAll_resume st id : m_resume (hook id (unhookAll st)) = 0.
Proof.
  unfold unhookAll. rewrite !unhook_resume. destruct id; reflexivity.
Qed.

Lemma Restorable_unhookAll m0 st :
  Restorable m0 st -> forall a, code (unhookAll st) a = m0 a.
Proof.
  intros H a.
  assert (Hall : Restorable m0 (unhookAll st)).
  { unfold unhookAll. now repeat apply Restorable_unhook. }
  apply Hall. intros id Hres. now rewrite unhookAll_resume in Hres.
Qed.

End LifecycleProperties.

Lemma hooked_exports_not_inet_addr id name :
  In (id, name) hooked_exports -> id <> H_inet_addr.
Proof.
  unfold hooked_exports. cbn.
  intros H; repeat destruct H as [H|H]; try contradiction;
    inversion H; discriminate.
Qed.

Section InstallProperties.

Context {Sys FilterRules : Type}.
Context {win32 : Win32 Sys} {engine : RuleEngine FilterRules}.
Context {layout : Layout}.

Implicit Types (st : @Dll Sys FilterRules) (h : ApiHook) (c : Memory).

(** *** One more hook keeps the installation restorable *)

Lemma attach_export_Restorable m0 lib id name st :
  stub_protect_ok -> addresses_unsigned -> exports_apart lib ->
  In (id, name) hooked_exports ->
  m_resume (hook id st) = 0 ->
  Restorable m0 st -> Located (eq lib) st ->
  Restorable m0 (snd (attach_export id (handler_addr id) lib name st))
  /\ Located (eq lib)
             (snd (attach_export id (handler_addr id) lib name st)).
Proof.
  intros Hstub Huns Hapart Hin Hnull [Hsave Hrest] Hloc.
  set (r := attach_export id (handler_addr id) lib name st).
  assert (Hother : forall id', id' <> id ->
                               hook id' (snd r) = hook id' st)
    by (intros; now apply attach_export_other).
  destruct (fst r) eqn:Hok.
  - (* attached *)
    destruct (attach_export_true _ _ _ _ _ Hok)
      as (Hp & Ho & Hs & Hr & Hc).
    fold r in Ho, Hs, Hr, Hc.
    assert (Hclean : forall a, in_patch (GetProcAddress lib name) a ->
                               code st a = m0 a).
    { intros a Ha. apply Hrest. intros id' Hres Hin'.
      destruct (Hloc id' Hres) as (lib' & name' & <- & Hin2 & Hnz & Ho').
      rewrite Ho' in Hin'.
      assert (id <> id') by congruence.
      now apply (Hapart id name id' name' a). }
    split; [split|].
    + intros id' Hres.
      destruct (HookId_eqb_spec id' id) as [->|Hne].
      * rewrite Hs, Ho, firstn_read_bytes by lia.
        apply read_bytes_ext. intros a Ha. apply Hclean.
        unfold in_patch. lia.
      * rewrite (Hother id' Hne) in Hres |- *. now apply Hsave.
    + intros a Hout.
      assert (Hres : m_resume (hook id (snd r)) <> 0).
      { specialize (Huns lib name).
        destruct (Hstub id (sys st)) as [Hta Hvp].
        destruct Hr as [->|[->|[_ Hf]]]; [lia|exact Hta|congruence]. }
      pose proof (Hout id Hres) as Hno. rewrite Ho in Hno.
      rewrite Hc by exact Hno.
      apply Hrest. intros id' Hres'.
      destruct (HookId_eqb_spec id' id) as [->|Hne]; [congruence|].
      specialize (Hout id'). rewrite Hother in Hout by exact Hne.
      now apply Hout.
    + intros id' Hres.
      destruct (HookId_eqb_spec id' id) as [->|Hne].
      * exists lib, name. now rewrite Ho.
      * rewrite (Hother id' Hne) in Hres |- *. now apply Hloc.
  - (* refused *)
    destruct (attach_export_false _ _ _ _ _ Hok) as (Hc & Hr).
    fold r in Hc, Hr.
    assert (Hsame : forall id', m_resume (hook id' (snd r)) <> 0 ->
                                hook id' (snd r) = hook id' st).
    { intros id' Hres. apply Hother. congruence. }
    split; [split|].
    + intros id' Hres. pose proof (Hsame id' Hres) as E.
      rewrite E in Hres |- *. now apply Hsave.
    + intros a Hout. rewrite Hc. apply Hrest. intros id' Hres.
      assert (id' <> id) by congruence.
      specialize (Hout id'). rewrite Hother in Hout by assumption.
      now apply Hout.
    + intros id' Hres. pose proof (Hsame id' Hres) as E.
      rewrite E in Hres |- *. now apply Hloc.
Qed.

Lemma attach_chain_Restorable m0 lib targets : forall st,
  stub_protect_ok -> addresses_unsigned -> exports_apart lib ->
  incl targets hooked_exports ->
  NoDup (map fst targets) ->
  (forall id name, In (id, name) targets -> m_resume (hook id st) = 0) ->
  Restorable m0 st -> Located (eq lib) st ->
  Restorable m0 (snd (attach_chain targets lib st)).
Proof.
  induction targets as [|[id name] rest IH];
    intros st Hstub Huns Hapart Hincl Hnd Hnull Hres Hloc.
  - exact Hres.
  - cbn [attach_chain].
    destruct (attach_export_Restorable m0 lib id name st)
      as [Hres1 Hloc1]; auto.
    { apply Hincl. now left. }
    { apply (Hnull id name). now left. }
    destruct (attach_export id (handler_addr id) lib name st)
      as [[|] st1] eqn:E; cbn [snd] in *; [|exact Hres1].
    cbn [map fst] in Hnd. inversion Hnd as [|? ? Hnotin Hnd']; subst.
    apply IH; auto.
    + intros x Hx. apply Hincl. now right.
    + intros id' name' Hin'.
      assert (Hne : id' <> id).
      { intros ->. apply Hnotin.
        change id with (fst (id, name')). now apply in_map. }
      pose proof (attach_export_other id (handler_addr id) lib name st
                                      id' Hne) as Ho.
      rewrite E in Ho. cbn [snd] in Ho. rewrite Ho.
      apply (Hnull id' name'). now right.
Qed.

End InstallProperties.

Lemma hooked_exports_NoDup : NoDup (map fst hooked_exports).
Proof.
  unfold hooked_exports. cbn.
  repeat constructor; cbn; intuition discriminate.
Qed.

Section FirstInstall.

Context {Sys FilterRules : Type}.
Context {win32 : Win32 Sys} {engine : RuleEngine FilterRules}.
Context {layout : Layout}.

Implicit Types (st : @Dll Sys FilterRules) (h : ApiHook) (c : Memory).

(** The wait ends once the library is there, given polls enough. *)
Lemma wait_ws2_returns n : forall fuel s,
  ws2_shows_up n s -> (n < fuel)%nat ->
  exists ws2 s', wait_ws2 fuel s = Some (ws2, s') /\ ws2 <> 0.
Proof.
  induction n as [|n IH]; intros fuel s Hup Hlt;
    (destruct fuel as [|fuel]; [lia|]); cbn [wait_ws2];
    unfold ws2_shows_up in Hup; cbn [polls] in Hup;
    destruct (GetModuleHandleW "WS2_32.DLL" s) as [ws2 s1] eqn:E;
    cbn [fst snd] in Hup.
  - apply Z.eqb_neq in Hup. rewrite Hup. cbn [negb].
    exists ws2, s1. split; [reflexivity|]. now apply Z.eqb_neq.
  - destruct (ws2 =? 0) eqn:Ez; cbn [negb].
    + apply IH; [exact Hup | lia].
    + exists ws2, s1. split; [reflexivity|]. now apply Z.eqb_neq.
Qed.

Lemma setFilter_frame address st :
  code (snd (setFilter address st)) = code st
  /\ hooks (snd (setFilter address st)) = hooks st
  /\ g_instance (snd (setFilter address st)) = g_instance st
  /\ sys (snd (setFilter address st)) = sys st.
Proof.
  unfold setFilter.
  destruct (rules_install (rules st) address) as [[|] r];
    repeat split.
Qed.

(** States that differ outside memory and hooks are as restorable. *)
Lemma Restorable_frame m0 st st' :
  code st' = code st -> hooks st' = hooks st ->
  Restorable m0 st -> Restorable m0 st'.
Proof.
  unfold Restorable, hook. intros -> ->. auto.
Qed.

Lemma Restorable_never_installed st :
  never_installed st -> Restorable (code st) st.
Proof.
  intros H. split.
  - intros id Hres. now rewrite H in Hres.
  - reflexivity.
Qed.

Lemma failure_code : to_int (u32 (Z.lnot 0)) = -1.
Proof. reflexivity. Qed.

(** C6, amended.  A first call that finds WS2_32.DLL returns success or
    the hook failure [-1], never the configuration failure: the outcome
    of the initial [setFilter] is dropped.  On the hook failure no
    record is left installed, and where the stubs can be made
    executable and the hooked exports lie apart, memory is byte for
    byte what it was before the call. *)
Theorem first_install_outcome n fuel address st :
  never_installed st ->
  ws2_shows_up n (sys st) ->
  (n < fuel)%nat ->
  exists r st',
    SteamFilter fuel address st = Some (r, st')
    /\ (r = 1 \/ r = -1)
    /\ (r = -1 ->
        never_installed st'
        /\ (stub_protect_ok -> addresses_unsigned ->
            (forall lib, exports_apart lib) ->
            forall a, code st' a = code st a)).
Proof.
  intros Hfresh Hup Hlt. unfold SteamFilter, hook_not_null.
  rewrite (Hfresh H_connect). cbn [Z.eqb negb].
  destruct (wait_ws2_returns n fuel (sys st) Hup Hlt)
    as (ws2 & s' & -> & Hws2).
  set (st0 := with_machine (code st) s' st).
  destruct (setFilter_frame address st0) as (Hc1 & Hh1 & _ & _).
  destruct (setFilter address st0) as [cfg st1]. cbn [snd] in Hc1, Hh1.
  assert (Hres1 : Restorable (code st) st1).
  { apply (Restorable_frame _ st); [exact Hc1 | exact Hh1|].
    now apply Restorable_never_installed. }
  assert (Hnull1 : never_installed st1).
  { intros id. unfold hook. rewrite Hh1. apply Hfresh. }
  pose proof (attach_chain_Restorable (code st) ws2 hooked_exports st1)
    as Hchain.
  destruct (attach_chain hooked_exports ws2 st1) as [[|] st2];
    cbn [negb snd] in *.
  - destruct (GetModuleHandleExW _) as [inst s2].
    eexists _, _. split; [reflexivity|]. split; [now left|].
    discriminate.
  - eexists _, _. split; [reflexivity|]. rewrite failure_code.
    split; [now right|]. intros _. split.
    + intros id. apply unhookAll_resume.
    + intros Hstub Huns Hapart a.
      apply Restorable_unhookAll. apply Hchain; auto.
      * apply incl_refl.
      * apply hooked_exports_NoDup.
      * intros id Hres. now rewrite Hnull1 in Hres.
Qed.

(** *** Unload and re-install *)

Lemma FilterUnload_again st :
  FilterUnload (snd (FilterUnload st)) = (0, snd (FilterUnload st)).
Proof.
  unfold FilterUnload.
  destruct (g_instance st =? 0) eqn:E; cbn [snd].
  - now rewrite E.
  - reflexivity.
Qed.

Lemma FilterUnload_fresh (s : Sys) c (r : FilterRules) :
  FilterUnload (Dll_new s c r) = (0, Dll_new s c r).
Proof. reflexivity. Qed.

Lemma SteamFilter_again fuel address st :
  m_resume (hook H_connect st) <> 0 ->
  SteamFilter fuel address st = Some (setFilter address st)
  /\ hooks (snd (setFilter address st)) = hooks st
  /\ code (snd (setFilter address st)) = code st.
Proof.
  intros H. unfold SteamFilter, hook_not_null.
  apply Z.eqb_neq in H. rewrite H. cbn [negb].
  destruct (setFilter_frame address st) as (Hc & Hh & _).
  now repeat split.
Qed.

End FirstInstall.

Section Reinstall.

Context {Sys FilterRules : Type}.
Context {win32 : Win32 Sys} {engine : RuleEngine FilterRules}.
Context {layout : Layout}.

Implicit Types (st : @Dll Sys FilterRules) (h : ApiHook) (c : Memory).

Lemma attach_chain_other lib targets id : forall st,
  ~ In id (map fst targets) ->
  hook id (snd (attach_chain targets lib st)) = hook id st.
Proof.
  induction targets as [|[id' name] rest IH]; intros st Hnot.
  - reflexivity.
  - cbn [attach_chain]. cbn [map fst In] in Hnot.
    pose proof (attach_export_other id' (handler_addr id') lib name st id)
      as Ho.
    destruct (attach_export id' (handler_addr id') lib name st)
      as [[|] st1]; cbn [snd] in *.
    + rewrite IH by tauto. apply Ho. intros ->. tauto.
    + apply Ho. intros ->. tauto.
Qed.

(** Where stubs can be made executable, every export of a chain that
    went through is left with a resume address. *)
Lemma attach_chain_installed lib targets : forall st,
  stub_protect_ok -> addresses_unsigned ->
  NoDup (map fst targets) ->
  fst (attach_chain targets lib st) = true ->
  forall id name,
    In (id, name) targets ->
    m_resume (hook id (snd (attach_chain targets lib st))) <> 0.
Proof.
  induction targets as [|[id' name'] rest IH];
    intros st Hstub Huns Hnd Hok id name Hin.
  - destruct Hin.
  - cbn [attach_chain] in *. cbn [map fst] in Hnd.
    inversion Hnd as [|? ? Hnotin Hnd']; subst.
    pose proof (attach_export_true id' (handler_addr id') lib name' st)
      as Ht.
    destruct (attach_export id' (handler_addr id') lib name' st)
      as [[|] st1]; cbn [fst snd] in *; [|discriminate].
    destruct Hin as [Heq|Hin].
    + inversion Heq; subst; clear Heq.
      rewrite attach_chain_other by exact Hnotin.
      destruct (Ht eq_refl) as (_ & _ & _ & Hr & _).
      specialize (Huns lib name).
      destruct (Hstub id (sys st)) as [Hta Hvp].
      destruct Hr as [->|[->|[_ Hf]]]; [lia|exact Hta|congruence].
    + now apply (IH st1 Hstub Huns Hnd' Hok id name).
Qed.

(** X25.  After a first call that reported success, with stubs that can be
    made executable, another call is [setFilter] and nothing else. *)
Lemma reinstall_reconfigures fuel address st st1 fuel' address' :
  never_installed st ->
  stub_protect_ok -> addresses_unsigned ->
  SteamFilter fuel address st = Some (1, st1) ->
  SteamFilter fuel' address' st1 = Some (setFilter address' st1)
  /\ hooks (snd (setFilter address' st1)) = hooks st1
  /\ code (snd (setFilter address' st1)) = code st1.
Proof.
  intros Hfresh Hstub Huns Hfirst.
  apply SteamFilter_again.
  revert Hfirst. unfold SteamFilter, hook_not_null.
  rewrite (Hfresh H_connect). cbn [Z.eqb negb].
  destruct (wait_ws2 fuel (sys st)) as [[ws2 s]|]; [|discriminate].
  destruct (setFilter address _) as [cfg st0].
  pose proof (attach_chain_installed ws2 hooked_exports st0 Hstub Huns
                hooked_exports_NoDup) as Hall.
  destruct (attach_chain hooked_exports ws2 st0) as [[|] st2];
    cbn [negb fst snd] in *.
  - destruct (GetModuleHandleExW _) as [inst s2].
    intros E. assert (Hst : st1 = with_instance inst
                                   (with_machine
                                      (code (OutputDebugString
                                               "SteamFilter hook attached\n"
                                               st2)) s2
                                      (OutputDebugString
                                         "SteamFilter hook attached\n" st2)))
      by congruence.
    rewrite Hst. apply (Hall eq_refl H_connect "connect"%string).
    now left.
  - rewrite failure_code. discriminate.
Qed.

End Reinstall.

Section Invariants.

Context {Sys FilterRules : Type}.
Context {win32 : Win32 Sys} {engine : RuleEngine FilterRules}.
Context {layout : Layout}.

Implicit Types (st : @Dll Sys FilterRules) (h : ApiHook) (c : Memory).

(** C8.  [attach] on a null address, or on an entry point that starts
    with neither [mov edi, edi] nor [push imm8], fails and leaves the
    code bytes as they were. *)
Theorem attach_rejects id address hook_fn st :
  address = 0
  \/ (read16 (code st) address <> MOV_EDI_EDI
      /\ code st address <> PUSH_IMM8) ->
  fst (attach id address hook_fn st) = false
  /\ code (snd (attach id address hook_fn st)) = code st.
Proof.
  intros H. unfold attach, ApiHook_attach.
  destruct H as [->|[Hmov Hpush]].
  - split; reflexivity.
  - apply Z.eqb_neq in Hmov, Hpush. rewrite Hmov, Hpush.
    destruct (address =? 0); split; reflexivity.
Qed.

(** *** What no run of the entry points disturbs *)

Lemma Undisturbed_frame c0 st st' :
  code st' = code st -> hooks st' = hooks st ->
  Undisturbed c0 st -> Undisturbed c0 st'.
Proof.
  unfold Undisturbed, Located, hook. intros -> ->. auto.
Qed.

Lemma Undisturbed_attach_export c0 lib id name st :
  In (id, name) hooked_exports ->
  Undisturbed c0 st ->
  Undisturbed c0 (snd (attach_export id (handler_addr id) lib name st)).
Proof.
  intros Hin (Hinet & Hloc & Hcode).
  pose proof (hooked_exports_not_inet_addr id name Hin) as Hne.
  set (r := attach_export id (handler_addr id) lib name st).
  assert (Hother : forall id', id' <> id ->
                               hook id' (snd r) = hook id' st)
    by (intros; now apply attach_export_other).
  split; [|split].
  - rewrite Hother by congruence. exact Hinet.
  - intros id' Hres.
    destruct (HookId_eqb_spec id' id) as [Heq|Hne'].
    + subst id'. destruct (fst r) eqn:Hok.
      * destruct (attach_export_true _ _ _ _ _ Hok) as (Hp & Ho & _).
        fold r in Ho. exists lib, name. now rewrite Ho.
      * destruct (attach_export_false _ _ _ _ _ Hok) as (_ & Hz).
        fold r in Hz. congruence.
    + rewrite (Hother id' Hne') in Hres |- *. now apply Hloc.
  - intros a Hout. destruct (fst r) eqn:Hok.
    + destruct (attach_export_true _ _ _ _ _ Hok) as (_ & _ & _ & _ & Hc).
      fold r in Hc. rewrite Hc by now apply (Hout lib id name).
      now apply Hcode.
    + destruct (attach_export_false _ _ _ _ _ Hok) as (Hc & _).
      fold r in Hc. rewrite Hc. now apply Hcode.
Qed.

Lemma Undisturbed_attach_chain c0 lib targets : forall st,
  incl targets hooked_exports ->
  Undisturbed c0 st ->
  Undisturbed c0 (snd (attach_chain targets lib st)).
Proof.
  induction targets as [|[id name] rest IH]; intros st Hincl Hst.
  - exact Hst.
  - cbn [attach_chain].
    pose proof (Undisturbed_attach_export c0 lib id name st
                  (Hincl _ (or_introl eq_refl)) Hst) as H1.
    destruct (attach_export id (handler_addr id) lib name st)
      as [[|] st1]; cbn [snd] in *; [|exact H1].
    apply IH; [|exact H1]. intros x Hx. apply Hincl. now right.
Qed.

Lemma Undisturbed_unhook c0 id st :
  Undisturbed c0 st -> Undisturbed c0 (unhook id st).
Proof.
  intros (Hinet & Hloc & Hcode). split; [|split].
  - destruct (HookId_eqb_spec id H_inet_addr) as [->|Hne].
    + destruct (unhook_null H_inet_addr st) as [_ Hsame].
      { now rewrite Hinet. }
      now rewrite Hsame.
    + rewrite unhook_other by congruence. exact Hinet.
  - intros id' Hres. rewrite unhook_resume in Hres.
    destruct (HookId_eqb_spec id' id) as [Heq|Hne]; [congruence|].
    rewrite unhook_other by exact Hne. now apply Hloc.
  - intros a Hout. rewrite unhook_code.
    destruct (m_resume (hook id st) =? 0) eqn:E; [now apply Hcode|].
    apply Z.eqb_neq in E.
    destruct (Hloc id E) as (lib & name & _ & Hin & _ & Ho).
    rewrite restore_outside; [now apply Hcode|].
    rewrite Ho. now apply (Hout lib id name).
Qed.

Lemma Undisturbed_unhookAll c0 st :
  Undisturbed c0 st -> Undisturbed c0 (unhookAll st).
Proof.
  intros H. unfold unhookAll. now repeat apply Undisturbed_unhook.
Qed.

Lemma Undisturbed_removeHook c0 st :
  Undisturbed c0 st -> Undisturbed c0 (removeHook st).
Proof.
  intros H. unfold removeHook.
  destruct (hook_is_null (hook H_connect st)); [exact H|].
  apply Undisturbed_unhookAll in H. revert H.
  generalize (unhookAll st). intros st1 H.
  now apply (Undisturbed_frame c0 st1).
Qed.

Lemma Undisturbed_step c0 op st st' :
  step op st = Some st' -> Undisturbed c0 st -> Undisturbed c0 st'.
Proof.
  destruct op as [fuel address| |reason]; cbn [step].
  - unfold SteamFilter.
    destruct (hook_not_null (hook H_connect st)).
    + destruct (setFilter_frame address st) as (Hc & Hh & _).
      destruct (setFilter address st) as [cfg st1]. cbn [snd] in Hc, Hh.
      intros E Hst. inversion E; subst; clear E.
      now apply (Undisturbed_frame c0 st).
    + destruct (wait_ws2 fuel (sys st)) as [[ws2 s]|]; [|discriminate].
      set (st0 := with_machine (code st) s st).
      destruct (setFilter_frame address st0) as (Hc & Hh & _).
      destruct (setFilter address st0) as [cfg st1]. cbn [snd] in Hc, Hh.
      intros E Hst.
      assert (H1 : Undisturbed c0 st1)
        by now apply (Undisturbed_frame c0 st).
      pose proof (Undisturbed_attach_chain c0 ws2 hooked_exports st1
                    (incl_refl _) H1) as H2.
      destruct (attach_chain hooked_exports ws2 st1) as [[|] st2];
        cbn [negb snd] in *.
      * destruct (GetModuleHandleExW _) as [inst s2].
        inversion E; subst; clear E.
        now apply (Undisturbed_frame c0 st2).
      * inversion E; subst; clear E.
        now apply Undisturbed_unhookAll.
  - intros E Hst. inversion E; subst; clear E. unfold FilterUnload.
    destruct (g_instance st =? 0); cbn [snd]; [exact Hst|].
    apply (Undisturbed_frame c0 (removeHook st)); try reflexivity.
    now apply Undisturbed_removeHook.
  - intros E Hst. inversion E; subst; clear E. unfold DllMain.
    destruct (negb (reason =? DLL_PROCESS_DETACH)); cbn [snd];
      [exact Hst|].
    now apply Undisturbed_removeHook.
Qed.

Lemma Undisturbed_run c0 ops : forall st st',
  run ops st = Some st' -> Undisturbed c0 st -> Undisturbed c0 st'.
Proof.
  induction ops as [|op ops IH]; intros st st' E Hst; cbn [run] in E.
  - now inversion E; subst.
  - destruct (step op st) as [st1|] eqn:E1; [|discriminate].
    apply (IH st1 st' E). now apply (Undisturbed_step c0 op st).
Qed.

Lemma Undisturbed_new (s : Sys) c (r : FilterRules) :
  Undisturbed c (Dll_new s c r).
Proof.
  split; [reflexivity|]. split.
  - intros id Hres. destruct id; now cbn in Hres.
  - reflexivity.
Qed.

(** C10.  Whatever calls of [SteamFilter], [FilterUnload] and [DllMain]
    follow the load of the DLL, the hook object of [inet_addr] stays as
    constructed, resume null, and the bytes outside the patch areas of
    the six hooked exports stay as they were: [inet_addr] is never
    patched. *)
Theorem inet_addr_never_hooked ops (s : Sys) c (r : FilterRules) st' :
  run ops (Dll_new s c r) = Some st' ->
  hook H_inet_addr st' = ApiHook_new
  /\ m_resume (hook H_inet_addr st') = 0
  /\ forall a, outside_hooked_exports a -> code st' a = c a.
Proof.
  intros E.
  destruct (Undisturbed_run c ops _ _ E (Undisturbed_new s c r))
    as (Hinet & _ & Hcode).
  split; [exact Hinet|]. split; [now rewrite Hinet|].
  exact Hcode.
Qed.

End Invariants.

(** * The concrete scenarios *)

Lemma fair_stub_protect_ok :
  @stub_protect_ok nat fair_win32 demo_layout.
Proof. intros id s. destruct id; split; (discriminate || reflexivity). Qed.

Lemma demo_addresses_unsigned : @addresses_unsigned nat fair_win32.
Proof.
  intros lib name. cbn. unfold demo_exports.
  repeat match goal with
         | |- context [String.eqb ?a ?b] => destruct (String.eqb a b)
         end; lia.
Qed.

Lemma demo_exports_apart lib : @exports_apart nat fair_win32 lib.
Proof.
  intros id name id' name' a Hin Hin' Hne _ _.
  unfold hooked_exports in Hin, Hin'. cbn [In] in Hin, Hin'.
  unfold in_patch.
  repeat destruct Hin as [Hin|Hin]; try contradiction;
    inversion Hin; subst; clear Hin;
    repeat destruct Hin' as [Hin'|Hin']; try contradiction;
    inversion Hin'; subst; clear Hin';
    try congruence; cbn; lia.
Qed.

Lemma demo_never_installed c : never_installed (demo_dll c).
Proof. intros id. destruct id; reflexivity. Qed.

(** C5.  A stub that cannot be made executable: [attach] on an entry
    point starting with [push imm8] returns true and patches it, the
    record keeps a null resume address, and [unhook] then leaves the
    patch in place. *)
Theorem unhook_misses_stubless_attach :
  let st0 := demo_dll push_code in
  let r := attach (win32 := stubborn_win32) (layout := demo_layout)
                  H_connect 0x1000 0x8000 st0 in
  let st2 := unhook H_connect (snd r) in
  let area := [0xFFB; 0xFFC; 0xFFD; 0xFFE; 0xFFF; 0x1000; 0x1001] in
  fst r = true
  /\ m_resume (hook H_connect (snd r)) = 0
  /\ map (code st0) area = [0x90; 0x90; 0x90; 0x90; 0x90; 0x6A; 0x10]
  /\ map (code st2) area = [0xE9; 0x00; 0x70; 0x00; 0x00; 0xEB; 0xF9].
Proof. vm_compute. repeat split. Qed.

(** C6, as written, fails: the initial configuration is refused and the
    first call still reports success. *)
Lemma first_install_hides_config_failure :
  fst (setFilter (engine := strict_engine) "27030" (demo_dll demo_code)) = 0
  /\ option_map fst
       (SteamFilter (win32 := fair_win32) (engine := strict_engine)
                    (layout := demo_layout) 5 "27030" (demo_dll demo_code))
     = Some 1.
Proof. vm_compute. split; reflexivity. Qed.

Lemma first_install_outcome_witness :
  never_installed (demo_dll odd_code)
  /\ @ws2_shows_up nat fair_win32 2 (sys (demo_dll odd_code))
  /\ (2 < 5)%nat
  /\ exists st',
      SteamFilter (win32 := fair_win32) (engine := demo_engine)
                  (layout := demo_layout) 5 "27030" (demo_dll odd_code)
      = Some (-1, st')
      /\ never_installed st'
      /\ forall a, code st' a = odd_code a.
Proof.
  split; [apply demo_never_installed|].
  split; [vm_compute; discriminate|].
  split; [lia|].
  destruct (@first_install_outcome nat Verdict fair_win32 demo_engine
              demo_layout 2 5 "27030" (demo_dll odd_code))
    as (r & st' & E & _ & Hroll).
  - apply demo_never_installed.
  - vm_compute. discriminate.
  - lia.
  - assert (Hr : r = -1).
    { assert (Hv : option_map fst
                     (SteamFilter (win32 := fair_win32)
                        (engine := demo_engine) (layout := demo_layout)
                        5 "27030" (demo_dll odd_code)) = Some (-1))
        by (vm_compute; reflexivity).
      rewrite E in Hv. cbn in Hv. congruence. }
    subst r. exists st'. split; [exact E|].
    destruct (Hroll eq_refl) as [Hnull Hcode]. split; [exact Hnull|].
    apply Hcode.
    + apply fair_stub_protect_ok.
    + apply demo_addresses_unsigned.
    + apply demo_exports_apart.
Defined.

(** C7.  After an install that reported success with the stub of
    [connect] not executable, a second call is no reconfiguration: it
    reports the hook failure and takes the other hooks out. *)
Theorem reinstall_after_stubless_install :
  match SteamFilter (win32 := stubborn_win32) (engine := demo_engine)
                    (layout := demo_layout) 5 "27030" (demo_dll push_code)
  with
  | Some (r1, st1) =>
      match SteamFilter (win32 := stubborn_win32) (engine := demo_engine)
                        (layout := demo_layout) 5 "27031" st1 with
      | Some (r2, st2) =>
          r1 = 1 /\ m_resume (hook H_connect st1) = 0
          /\ m_resume (hook H_recv st1) = 0x1202
          /\ code st1 0x1200 = 0xEB
          /\ r2 = -1
          /\ m_resume (hook H_recv st2) = 0
          /\ code st2 0x1200 = 0x8B
          /\ code st2 0x1000 = 0xEB
      | None => False
      end
  | None => False
  end.
Proof. vm_compute. repeat split. Qed.

Lemma attach_rejects_witness :
  (read16 (code (demo_dll odd_code)) 0x1400 <> MOV_EDI_EDI
   /\ code (demo_dll odd_code) 0x1400 <> PUSH_IMM8)
  /\ fst (attach (win32 := fair_win32) (layout := demo_layout)
                 H_wsaRecv 0x1400 0x8400 (demo_dll odd_code)) = false
  /\ code (snd (attach (win32 := fair_win32) (layout := demo_layout)
                       H_wsaRecv 0x1400 0x8400 (demo_dll odd_code)))
     = odd_code.
Proof.
  assert (H : read16 (code (demo_dll odd_code)) 0x1400 <> MOV_EDI_EDI
              /\ code (demo_dll odd_code) 0x1400 <> PUSH_IMM8)
    by (split; vm_compute; discriminate).
  split; [exact H|].
  apply (@attach_rejects nat Verdict fair_win32 demo_layout H_wsaRecv
           0x1400 0x8400 (demo_dll odd_code)).
  right. exact H.
Defined.

Lemma inet_addr_never_hooked_witness :
  exists st',
    run (win32 := fair_win32) (engine := demo_engine) (layout := demo_layout)
        [Op_SteamFilter 5 "27030"; Op_FilterUnload; Op_SteamFilter 5 "27031";
         Op_DllMain DLL_PROCESS_DETACH]
        (Dll_new 0%nat demo_code (true, None))
    = Some st'
    /\ m_resume (hook H_inet_addr st') = 0
    /\ map (code st') [0x15FB; 0x15FF; 0x1600; 0x1601]
       = map demo_code [0x15FB; 0x15FF; 0x1600; 0x1601].
Proof.
  destruct (run (win32 := fair_win32) (engine := demo_engine)
              (layout := demo_layout)
              [Op_SteamFilter 5 "27030"; Op_FilterUnload;
               Op_SteamFilter 5 "27031"; Op_DllMain DLL_PROCESS_DETACH]
              (Dll_new 0%nat demo_code (true, None))) as [st'|] eqn:E.
  - exists st'. split; [reflexivity|].
    destruct (@inet_addr_never_hooked nat Verdict fair_win32 demo_engine
                demo_layout _ _ _ _ _ E) as (_ & Hres & Hcode).
    split; [exact Hres|].
    assert (Hout : forall a, 0x15FB <= a < 0x1602 ->
                             @outside_hooked_exports nat fair_win32 a).
    { intros a Ha lib id name Hin. unfold hooked_exports in Hin.
      cbn [In] in Hin. unfold in_patch.
      repeat destruct Hin as [Hin|Hin]; try contradiction;
        inversion Hin; subst; cbn; lia. }
    cbn [map]. rewrite !Hcode by (apply Hout; lia).
    reflexivity.
  - exfalso. vm_compute in E. discriminate.
Defined.

(** * More on the handlers *)

Section HandlerExtras.

Context {Host FilterRules : Type}.
Context {winsock : Winsock Host} {engine : RuleEngine FilterRules}.
Context {layout : Layout}.

Implicit Types (w : @World Host FilterRules) (name : sockaddr).

(** X1.  An [AF_INET] destination that no rule matches goes to the
    original [connect] as it came: same socket, same destination, same
    length, and the result comes back as it is. *)
Theorem connect_no_match_passthrough s name namelen w :
  sa_family name = AF_INET ->
  fst (rules_match_addr (g_rules w) name 0) = false ->
  connectHook s name namelen w
  = (fst (connect_orig s name namelen (proc w)),
     resume (Call_connect s name namelen)
            (snd (connect_orig s name namelen (proc w))) w).
Proof.
  intros Hfam Hno. unfold connectHook. rewrite Hno.
  rewrite orb_true_r. unfold connectResume.
  destruct (connect_orig s name namelen (proc w)); reflexivity.
Qed.

(** X2.  [gethostbyname] goes to the original resolver unchanged when no
    rule matches the name, and when the matching rule carries the address
    [INADDR_ANY]. *)
Theorem gethost_passthrough host_name w :
  fst (rules_match_name (g_rules w) host_name) = false
  \/ (exists r, snd (rules_match_name (g_rules w) host_name) = Some r
                /\ sin_addr r = INADDR_ANY) ->
  gethostHook host_name w
  = (fst (gethostbyname_orig host_name (proc w)),
     resume (Call_gethostbyname host_name)
            (snd (gethostbyname_orig host_name (proc w))) w).
Proof.
  intros H. unfold gethostHook.
  assert (Hgo : negb (fst (rules_match_name (g_rules w) host_name))
                || match snd (rules_match_name (g_rules w) host_name) with
                   | Some r => sin_addr r =? INADDR_ANY
                   | None => false
                   end = true).
  { destruct H as [->|(r & -> & ->)]; [reflexivity|].
    apply orb_true_r. }
  rewrite Hgo. unfold gethostResume.
  destruct (gethostbyname_orig host_name (proc w)); reflexivity.
Qed.

(** X3.  A matched rule with an address that is neither [INADDR_ANY] nor
    [INADDR_NONE] answers [gethostbyname] from the static result: one
    IPv4 address, the rule's, under the name "remapped.local"; the
    original resolver is not called and the process is left as it was. *)
Theorem gethost_redirect host_name w r :
  rules_match_name (g_rules w) host_name = (true, Some r) ->
  sin_addr r <> INADDR_ANY ->
  sin_addr r <> INADDR_NONE ->
  fst (gethostHook host_name w) = result_ptr
  /\ gethost_result (snd (gethostHook host_name w))
     = {| h_name := "remapped.local"; h_aliases := 0;
          h_addrtype := AF_INET; h_length := 4;
          h_addr_list := [sin_addr r] |}
  /\ resumed (snd (gethostHook host_name w)) = resumed w
  /\ proc (snd (gethostHook host_name w)) = proc w.
Proof.
  intros Hmatch Hany Hnone. unfold gethostHook. rewrite Hmatch.
  cbn [fst snd negb orb].
  apply Z.eqb_neq in Hany, Hnone. rewrite Hany, Hnone.
  repeat split.
Qed.

(** X4.  The four metering hooks are transparent: each calls its
    original once with the arguments it was given, returns what the
    original returned, and leaves the process as the original left it. *)
Theorem metering_hooks_forward :
  (forall s buf len flags w,
      fst (recvHook s buf len flags w)
      = fst (recv_orig s buf len flags (proc w))
      /\ proc (snd (recvHook s buf len flags w))
         = snd (recv_orig s buf len flags (proc w))
      /\ resumed (snd (recvHook s buf len flags w))
         = resumed w ++ [Call_recv s buf len flags])
  /\ (forall s buf len flags from fromLen w,
      fst (recvfromHook s buf len flags from fromLen w)
      = fst (recvfrom_orig s buf len flags from fromLen (proc w))
      /\ proc (snd (recvfromHook s buf len flags from fromLen w))
         = snd (recvfrom_orig s buf len flags from fromLen (proc w))
      /\ resumed (snd (recvfromHook s buf len flags from fromLen w))
         = resumed w ++ [Call_recvfrom s buf len flags from fromLen])
  /\ (forall s buffers count received flags overlapped handler flags_in w,
      let orig := WSARecv_orig s buffers count received flags overlapped
                               handler (proc w) in
      let r := wsaRecvHook s buffers count received flags overlapped
                           handler flags_in w in
      fst r = wr_result (fst orig)
      /\ proc (snd r) = snd orig
      /\ resumed (snd r)
         = resumed w ++ [Call_WSARecv s buffers count received flags
                                      overlapped handler])
  /\ (forall s overlapped length wait flags w,
      let orig := WSAGetOverlappedResult_orig s overlapped length wait
                                              flags (proc w) in
      let r := wsaGetOverlappedHook s overlapped length wait flags w in
      fst r = fst orig
      /\ proc (snd r) = snd orig
      /\ g_meter (snd r) = g_meter w
      /\ resumed (snd r)
         = resumed w ++ [Call_WSAGetOverlappedResult s overlapped length
                                                     wait flags]).
Proof.
  repeat split.
  all: try (unfold recvHook, recvResume;
            destruct (recv_orig _ _ _ _ _); reflexivity).
  all: try (unfold recvfromHook, recvfromResume;
            destruct (recvfrom_orig _ _ _ _ _ _ _); reflexivity).
  all: try (unfold wsaGetOverlappedHook, wsaGetOverlappedResume;
            destruct (WSAGetOverlappedResult_orig _ _ _ _ _ _);
            reflexivity).
  all: unfold wsaRecvHook, wsaRecvResume;
    destruct (WSARecv_orig _ _ _ _ _ _ _ _) as [o p];
    repeat match goal with
           | |- context [if ?b then _ else _] => destruct b
           end; reflexivity.
Qed.

(** X7.  On the plain path of [WSARecv] (no overlapped block, no
    completion routine) a call that does not fail and does not peek is
    metered by the count it left in [*received]; a call that fails leaves
    the meter alone. *)
Theorem wsaRecvHook_plain s buffers count received flags flags_in w :
  let out := WSARecv_orig s buffers count received flags 0 0 (proc w) in
  let w' := snd (wsaRecvHook s buffers count received flags 0 0 flags_in w) in
  (wr_result (fst out) = SOCKET_ERROR -> g_meter w' = g_meter w)
  /\ (wr_result (fst out) <> SOCKET_ERROR ->
      flags = 0 \/ Z.land flags_in MSG_PEEK = 0 ->
      g_meter w'
      = Meter_add (to_int (wr_received (fst out))) (tick (snd out))
                  (g_meter w)).
Proof.
  cbn zeta. unfold wsaRecvHook, wsaRecvResume. cbn [Z.eqb negb orb].
  destruct (WSARecv_orig s buffers count received flags 0 0 (proc w))
    as [o p]. cbn [fst snd].
  split.
  - intros ->. reflexivity.
  - intros Hres Hpeek. apply Z.eqb_neq in Hres. rewrite Hres.
    assert (Hig : negb (flags =? 0)
                  && negb (Z.land flags_in MSG_PEEK =? 0) = false).
    { destruct Hpeek as [->| ->]; [reflexivity|]. apply andb_false_r. }
    rewrite Hig. reflexivity.
Qed.

(** X8.  On the overlapped path of [WSARecv] nothing is metered unless
    the call returned 0 with an overlapped block: a pending or failed
    operation, and one given only a completion routine, leave the meter
    alone. *)
Theorem wsaRecvHook_overlapped_unmetered s buffers count received flags
    overlapped handler flags_in w :
  overlapped <> 0 \/ handler <> 0 ->
  wr_result (fst (WSARecv_orig s buffers count received flags overlapped
                               handler (proc w))) <> 0
  \/ overlapped = 0 ->
  g_meter (snd (wsaRecvHook s buffers count received flags overlapped
                            handler flags_in w))
  = g_meter w.
Proof.
  intros Hpath Hno. unfold wsaRecvHook, wsaRecvResume.
  assert (Hb : negb (overlapped =? 0) || negb (handler =? 0) = true).
  { destruct Hpath as [H|H]; apply Z.eqb_neq in H; rewrite H;
      [reflexivity | apply orb_true_r]. }
  rewrite Hb.
  destruct (WSARecv_orig s buffers count received flags overlapped handler
                         (proc w)) as [o p]. cbn [fst snd] in *.
  destruct Hno as [H| ->].
  - apply Z.eqb_neq in H. rewrite H. reflexivity.
  - rewrite andb_false_r. reflexivity.
Qed.

(** X9.  No handler changes the rule set, and the two policy handlers
    never touch the meter. *)
Theorem handlers_keep_rules :
  (forall s name namelen w,
      g_rules (snd (connectHook s name namelen w)) = g_rules w
      /\ g_meter (snd (connectHook s name namelen w)) = g_meter w)
  /\ (forall host_name w,
      g_rules (snd (gethostHook host_name w)) = g_rules w
      /\ g_meter (snd (gethostHook host_name w)) = g_meter w)
  /\ (forall s buf len flags w,
      g_rules (snd (recvHook s buf len flags w)) = g_rules w)
  /\ (forall s buf len flags from fromLen w,
      g_rules (snd (recvfromHook s buf len flags from fromLen w))
      = g_rules w)
  /\ (forall s buffers count received flags overlapped handler flags_in w,
      g_rules (snd (wsaRecvHook s buffers count received flags overlapped
                                handler flags_in w)) = g_rules w)
  /\ (forall s overlapped length wait flags w,
      g_rules (snd (wsaGetOverlappedHook s overlapped length wait flags w))
      = g_rules w).
Proof.
  repeat split; intros.
  1, 2: unfold connectHook, connectResume; cbv zeta;
    destruct (rules_match_addr _ _ _) as [m [r|]]; cbn [fst snd];
    repeat match goal with
           | |- context [if ?b then _ else _] => destruct b
           | |- context [connect_orig ?a ?b ?c ?d] =>
               destruct (connect_orig a b c d)
           end; reflexivity.
  1, 2: unfold gethostHook, gethostResume; cbv zeta;
    destruct (rules_match_name _ _) as [m [r|]]; cbn [fst snd];
    repeat match goal with
           | |- context [if ?b then _ else _] => destruct b
           | |- context [gethostbyname_orig ?a ?b] =>
               destruct (gethostbyname_orig a b)
           end; reflexivity.
  - unfold recvHook, recvResume.
    destruct (recv_orig _ _ _ _ _); reflexivity.
  - unfold recvfromHook, recvfromResume.
    destruct (recvfrom_orig _ _ _ _ _ _ _); reflexivity.
  - unfold wsaRecvHook, wsaRecvResume.
    destruct (WSARecv_orig _ _ _ _ _ _ _ _) as [o p].
    repeat match goal with
           | |- context [if ?b then _ else _] => destruct b
           end; reflexivity.
  - unfold wsaGetOverlappedHook, wsaGetOverlappedResume.
    destruct (WSAGetOverlappedResult_orig _ _ _ _ _ _); reflexivity.
Qed.

End HandlerExtras.

(** * More on the meter *)

Lemma u32_u32_add a b : u32 (u32 a + b) = u32 (a + b).
Proof. unfold u32. now rewrite Zplus_mod_idemp_l. Qed.

Lemma u32_s64 z : u32 (s64 z) = u32 z.
Proof.
  unfold u32, s64.
  change (2 ^ 64) with 18446744073709551616.
  change (2 ^ 63) with 9223372036854775808.
  change (2 ^ 32) with 4294967296.
  Z.div_mod_to_equations. lia.
Qed.

Lemma newTick_mod now m :
  u32 (m_total (newTick now m) + m_currentBytes (newTick now m))
  = u32 (m_total m + m_currentBytes m).
Proof.
  unfold newTick. destruct (u32 (now - m_now m) <? 1); cbn; [reflexivity|].
  rewrite Z.add_0_r. apply u32_s64.
Qed.

Lemma Meter_add_mod bytes now m :
  u32 (m_total (Meter_add bytes now m)
       + m_currentBytes (Meter_add bytes now m))
  = u32 (m_total m + m_currentBytes m + counted bytes).
Proof.
  unfold Meter_add. fold (counted bytes). cbn.
  rewrite (Z.add_comm (m_total _)), u32_u32_add.
  replace (m_currentBytes (newTick now m) + counted bytes
           + m_total (newTick now m))
    with (m_total (newTick now m) + m_currentBytes (newTick now m)
          + counted bytes) by lia.
  rewrite <- u32_u32_add, newTick_mod, u32_u32_add. reflexivity.
Qed.

(** X10.  Whatever the byte counts and the ticks, overflow included, the
    cumulative total and the current window together agree modulo 2^32
    with what they held before plus the byte counts passed in, a failed
    operation counting as zero. *)
Theorem meter_sum_mod_2_32 calls : forall m,
  u32 (m_total (Meter_adds calls m) + m_currentBytes (Meter_adds calls m))
  = u32 (m_total m + m_currentBytes m + sum_counted calls).
Proof.
  induction calls as [|c calls IH]; intros m.
  - cbn. now rewrite Z.add_0_r.
  - change (Meter_adds (c :: calls) m)
      with (Meter_adds calls (Meter_add (fst c) (snd c) m)).
    change (sum_counted (c :: calls))
      with (counted (fst c) + sum_counted calls).
    rewrite IH.
    rewrite <- u32_u32_add, Meter_add_mod, u32_u32_add.
    f_equal. lia.
Qed.

(** Once a tick is taken, the same tick does not roll the window again. *)
Lemma newTick_settled now m :
  (u32 (now - m_now (newTick now m)) <? 1) = true.
Proof.
  unfold newTick. destruct (u32 (now - m_now m) <? 1) eqn:E; cbn.
  - exact E.
  - now rewrite Z.sub_diag.
Qed.

(** X11.  Two additions made at the same tick commute: the meter ends in
    the same state whichever caller got the lock first. *)
Theorem meter_same_tick_commute b1 b2 now m :
  Meter_add b2 now (Meter_add b1 now m)
  = Meter_add b1 now (Meter_add b2 now m).
Proof.
  assert (Hstay : forall b, newTick now (Meter_add b now m)
                            = Meter_add b now m).
  { intros b. unfold newTick at 1.
    change (m_now (Meter_add b now m)) with (m_now (newTick now m)).
    now rewrite newTick_settled. }
  unfold Meter_add at 1 3. rewrite !Hstay.
  fold (counted b1). fold (counted b2).
  unfold Meter_add. fold (counted b1). fold (counted b2). cbn.
  f_equal. rewrite !u32_u32_add. f_equal. lia.
Qed.

(** * More on the patcher *)

Lemma land_255 v : Z.land v 0xFF = v mod 256.
Proof. change 0xFF with (Z.ones 8). now rewrite Z.land_ones by lia. Qed.

Lemma shiftr_8 v : Z.shiftr v 8 = v / 256.
Proof. now rewrite Z.shiftr_div_pow2 by lia. Qed.

(** The four bytes of [writeOffset]: each under 256, and together the
    value modulo 2^32. *)
Lemma writeOffset_value value :
  le32 (writeOffset value) = u32 value
  /\ List.length (writeOffset value) = 4%nat
  /\ Forall (fun b => 0 <= b < 256) (writeOffset value).
Proof.
  unfold writeOffset. cbv zeta. rewrite !land_255, !shiftr_8.
  split; [|split].
  - unfold le32, u32. cbn [fold_right].
    change (2 ^ 32) with 4294967296.
    Z.div_mod_to_equations. lia.
  - reflexivity.
  - repeat constructor; apply Z.mod_pos_bound; lia.
Qed.

(** X12.  [writeOffset] stores a 32-bit value low byte first: its four
    bytes are each under 256 and, put together again, give the value
    modulo 2^32. *)
Theorem writeOffset_le32 value :
  le32 (writeOffset value) = u32 value
  /\ List.length (writeOffset value) = 4%nat
  /\ Forall (fun b => 0 <= b < 256) (writeOffset value).
Proof.
  destruct (writeOffset_value value) as (Hv & Hl & Hb).
  split; [exact Hv|]. split; [exact Hl | exact Hb].
Qed.

Lemma memcpy_read_back src : forall m d,
  read_bytes (memcpy_to m d src) d (List.length src) = src.
Proof.
  induction src as [|b src IH]; intros m d; [reflexivity|].
  cbn [memcpy_to List.length read_bytes]. f_equal.
  - rewrite memcpy_to_outside by lia. apply store_same.
  - apply IH.
Qed.

Section PatcherExtras.

Context {Sys FilterRules : Type}.
Context {win32 : Win32 Sys} {engine : RuleEngine FilterRules}.
Context {layout : Layout}.

Implicit Types (st : @Dll Sys FilterRules) (h : ApiHook) (c : Memory).

(** The memory a successful [attach] leaves. *)
Lemma attach_true_code id p hk st :
  fst (attach id p hk st) = true ->
  code (snd (attach id p hk st))
  = write16 (memcpy_to (store (code st) (p - 5) JMP_LONG) (p - 4)
                       (writeOffset (u32 (hk - p))))
            p JMP_SHORT_MINUS5
  /\ m_hook (hook id (snd (attach id p hk st))) = hk.
Proof.
  unfold attach, ApiHook_attach.
  destruct (p =? 0); [discriminate|].
  destruct (read16 (code st) p =? MOV_EDI_EDI).
  - unfold write_detour.
    destruct (VirtualProtect (p - 5) 7 PAGE_EXECUTE_READWRITE (sys st))
      as [[|] s1]; cbn [negb fst snd]; [|discriminate].
    intros _. rewrite hook_with_hook_same. split; reflexivity.
  - destruct (code st p =? PUSH_IMM8); [|discriminate].
    destruct (makeThunk _ _ _ _ _ _) as [[r h1] s1] eqn:Et.
    apply makeThunk_spec in Et. destruct Et as (_ & _ & Hh & _).
    unfold write_detour.
    destruct (VirtualProtect (p - 5) 7 PAGE_EXECUTE_READWRITE s1)
      as [[|] s2]; cbn [negb fst snd]; [|discriminate].
    intros _. rewrite hook_with_hook_same. split; [reflexivity|].
    exact Hh.
Qed.

Lemma detour_read c p hk :
  let c' := write16 (memcpy_to (store c (p - 5) JMP_LONG) (p - 4)
                               (writeOffset (u32 (hk - p))))
                    p JMP_SHORT_MINUS5 in
  c' (p - 5) = JMP_LONG
  /\ read_bytes c' (p - 4) 4 = writeOffset (u32 (hk - p))
  /\ c' p = 0xEB
  /\ c' (p + 1) = 0xF9.
Proof.
  intros c'. subst c'. unfold write16. repeat split.
  - rewrite !store_other by lia.
    rewrite memcpy_to_outside by (cbn; lia). apply store_same.
  - erewrite read_bytes_ext.
    + apply (memcpy_read_back (writeOffset (u32 (hk - p)))).
    + intros a Ha. cbn in Ha. rewrite !store_other by lia. reflexivity.
  - rewrite store_other by lia. apply store_same.
  - apply store_same.
Qed.

(** X13.  What a successful [attach] at [p] writes: a long jump in the
    five bytes before [p] whose displacement leads to the hook function,
    and at [p] the short jump [EB F9] that leads to that long jump. *)
Theorem attach_detour_layout id p hk st :
  fst (attach id p hk st) = true ->
  let c' := code (snd (attach id p hk st)) in
  c' (p - 5) = JMP_LONG
  /\ jmp_long_target (p - 5) (le32 (read_bytes c' (p - 4) 4)) = u32 hk
  /\ c' p = JMP_SHORT
  /\ jmp_short_target p (c' (p + 1)) = u32 (p - 5)
  /\ m_hook (hook id (snd (attach id p hk st))) = hk.
Proof.
  intros Hok c'. subst c'.
  destruct (attach_true_code id p hk st Hok) as [-> Hh].
  destruct (detour_read (code st) p hk) as (H5 & H4 & H0 & H1).
  cbv zeta in H5, H4, H0, H1.
  rewrite H5, H4, H0, H1.
  destruct (writeOffset_value (u32 (hk - p))) as [-> _].
  repeat split; try assumption.
  - unfold jmp_long_target, u32. change (2 ^ 32) with 4294967296.
    Z.div_mod_to_equations. lia.
  - unfold jmp_short_target. cbn [Z.ltb Z.compare Pos.compare
                                   Pos.compare_cont].
    f_equal. lia.
Qed.

(** X14.  The relocation stub of [makeThunk]: the two bytes of the entry
    point, a long jump, and the displacement [m_thunk - data]; by the
    rule of that jump it never leads back to [data + 2], the instruction
    that follows the relocated bytes. *)
Theorem makeThunk_stub thunk data h c (s : Sys) :
  List.length (m_thunk h) = 16%nat ->
  let h' := snd (fst (makeThunk thunk data 2 h c s)) in
  firstn 7 (m_thunk h')
  = [c data; c (data + 1); JMP_LONG] ++ writeOffset (u32 (thunk - data))
  /\ List.length (m_thunk h') = 16%nat
  /\ jmp_long_target (thunk + 2) (le32 (firstn 4 (skipn 3 (m_thunk h'))))
     <> u32 (data + 2).
Proof.
  intros Hlen h'. subst h'. unfold makeThunk.
  destruct (VirtualProtect thunk 16 PAGE_EXECUTE_READWRITE s) as [ok s1].
  assert (Ht : m_thunk (snd (fst (if negb ok
                 then (0, with_thunk
                            (buf_write
                               (buf_write
                                  (buf_write (m_thunk h) 0
                                     (read_bytes c data 2)) 2 [JMP_LONG])
                               (2 + 1) (writeOffset (u32 (thunk - data))))
                            h, s1)
                 else (thunk, with_thunk
                            (buf_write
                               (buf_write
                                  (buf_write (m_thunk h) 0
                                     (read_bytes c data 2)) 2 [JMP_LONG])
                               (2 + 1) (writeOffset (u32 (thunk - data))))
                            h, s1))))
               = [c data; c (data + 1); JMP_LONG]
                 ++ writeOffset (u32 (thunk - data))
                 ++ skipn 7 (m_thunk h)).
  { destruct ok; cbn [negb fst snd with_thunk m_thunk];
      destruct (m_thunk h) as [|t0 [|t1 [|t2 [|t3 [|t4 [|t5 [|t6 l]]]]]]];
      try discriminate; reflexivity. }
  rewrite Ht. clear Ht.
  set (off := writeOffset (u32 (thunk - data))).
  assert (Hoff : List.length off = 4%nat) by apply writeOffset_value.
  destruct off as [|b0 [|b1 [|b2 [|b3 [|]]]]] eqn:Eoff; try discriminate.
  split; [reflexivity|]. split.
  - cbn [app List.length]. rewrite length_skipn, Hlen. reflexivity.
  - cbn [app skipn firstn].
    destruct (writeOffset_value (u32 (thunk - data))) as [Hle _].
    fold off in Hle. rewrite Eoff in Hle. rewrite Hle.
    unfold jmp_long_target, u32. change (2 ^ 32) with 4294967296.
    Z.div_mod_to_equations. lia.
Qed.

(** X15.  Round trip: when [attach] succeeds and leaves a resume
    address, [unhook] puts back every byte and clears the record. *)
Theorem attach_unhook_round_trip id p hk st :
  fst (attach id p hk st) = true ->
  m_resume (hook id (snd (attach id p hk st))) <> 0 ->
  (forall a, code (unhook id (snd (attach id p hk st))) a = code st a)
  /\ m_resume (hook id (unhook id (snd (attach id p hk st)))) = 0
  /\ m_original (hook id (unhook id (snd (attach id p hk st)))) = 0.
Proof.
  intros Hok Hres.
  destruct (attach_true id p hk st Hok) as (Hp & Ho & Hs & _ & Hc).
  split; [|split].
  - intros a. rewrite unhook_code.
    apply Z.eqb_neq in Hres. rewrite Hres.
    rewrite Ho, Hs, firstn_read_bytes by lia.
    destruct (in_patch_dec p a) as [Hin|Hout].
    + now apply restore_inside.
    + rewrite <- (firstn_read_bytes (code st) 8 7) by lia.
      rewrite restore_outside by exact Hout. now apply Hc.
  - rewrite unhook_resume. now destruct (HookId_eqb_spec id id).
  - unfold unhook, ApiHook_unhook.
    apply Z.eqb_neq in Hres. rewrite Hres.
    now rewrite hook_with_hook_same.
Qed.

(** X16.  An entry point that carries a detour cannot be hooked again:
    any further [attach] at it fails and writes nothing. *)
Theorem attach_twice_rejected id p hk st id' hk' :
  fst (attach id p hk st) = true ->
  fst (attach id' p hk' (snd (attach id p hk st))) = false
  /\ code (snd (attach id' p hk' (snd (attach id p hk st))))
     = code (snd (attach id p hk st)).
Proof.
  intros Hok.
  destruct (attach_true_code id p hk st Hok) as [Hc _].
  destruct (detour_read (code st) p hk) as (_ & _ & H0 & H1).
  cbv zeta in H0, H1. rewrite <- Hc in H0, H1.
  generalize dependent (snd (attach id p hk st)). intros st1 _ H0 H1.
  unfold attach, ApiHook_attach.
  destruct (p =? 0); [split; reflexivity|].
  unfold read16. rewrite H0, H1. cbn [Z.eqb Z.add Z.mul].
  split; reflexivity.
Qed.

(** A record without a resume address is left alone by [unhook], and so
    is everything else. *)
Lemma unhook_null_id id st : m_resume (hook id st) = 0 -> unhook id st = st.
Proof.
  intros H. unfold unhook. rewrite ApiHook_unhook_null by exact H.
  destruct st as [sy c hs r gi d]. unfold with_hook, with_machine, hook.
  cbn. f_equal. destruct hs, id; reflexivity.
Qed.

(** X17.  [unhook] is idempotent: once a record is unhooked, or if it
    was never attached, [unhook] changes nothing. *)
Theorem unhook_idempotent id st :
  unhook id (unhook id st) = unhook id st.
Proof.
  apply unhook_null_id. rewrite unhook_resume.
  now destruct (HookId_eqb_spec id id).
Qed.

(** X18.  [unhookAll] leaves no record installed, and a second
    [unhookAll] changes nothing. *)
Theorem unhookAll_idempotent st :
  never_installed (unhookAll st)
  /\ unhookAll (unhookAll st) = unhookAll st.
Proof.
  assert (Hnull : never_installed (unhookAll st))
    by (intros id; apply unhookAll_resume).
  split; [exact Hnull|].
  revert Hnull. generalize (unhookAll st). intros st1 Hnull.
  unfold unhookAll. now rewrite !(unhook_null_id _ st1 (Hnull _)).
Qed.

End PatcherExtras.

(** * More on the life cycle *)

Section LifecycleExtras.

Context {Sys FilterRules : Type}.
Context {win32 : Win32 Sys} {engine : RuleEngine FilterRules}.
Context {layout : Layout}.

Implicit Types (st : @Dll Sys FilterRules) (h : ApiHook) (c : Memory).

Lemma wait_ws2_nonzero fuel : forall (s : Sys) ws2 s',
  wait_ws2 fuel s = Some (ws2, s') -> ws2 <> 0.
Proof.
  induction fuel as [|fuel IH]; intros s ws2 s'; cbn [wait_ws2];
    [discriminate|].
  destruct (GetModuleHandleW "WS2_32.DLL" s) as [h s1].
  destruct (h =? 0) eqn:E; cbn [negb].
  - apply IH.
  - intros H. inversion H; subst. now apply Z.eqb_neq.
Qed.

Lemma wait_ws2_never fuel : forall (s : Sys),
  (forall n, ~ ws2_shows_up n s) -> wait_ws2 fuel s = None.
Proof.
  induction fuel as [|fuel IH]; intros s Hnever; cbn [wait_ws2];
    [reflexivity|].
  pose proof (Hnever 0%nat) as H0. unfold ws2_shows_up in H0.
  cbn [polls] in H0.
  pose proof (fun n => Hnever (S n)) as Hrest.
  unfold ws2_shows_up in Hrest. cbn [polls] in Hrest.
  destruct (GetModuleHandleW "WS2_32.DLL" s) as [h s1].
  cbn [fst snd] in *.
  destruct (h =? 0) eqn:E; cbn [negb].
  - apply IH. exact Hrest.
  - apply Z.eqb_neq in E. contradiction.
Qed.

(** What a first call that reports success went through. *)
Lemma first_install_success fuel address st st1 :
  m_resume (hook H_connect st) = 0 ->
  SteamFilter fuel address st = Some (1, st1) ->
  exists ws2 st0,
    ws2 <> 0
    /\ code st0 = code st /\ hooks st0 = hooks st
    /\ fst (attach_chain hooked_exports ws2 st0) = true
    /\ code st1 = code (snd (attach_chain hooked_exports ws2 st0))
    /\ hooks st1 = hooks (snd (attach_chain hooked_exports ws2 st0)).
Proof.
  intros Hnull. unfold SteamFilter, hook_not_null.
  rewrite Hnull. cbn [Z.eqb negb].
  destruct (wait_ws2 fuel (sys st)) as [[ws2 s]|] eqn:Ew; [|discriminate].
  apply wait_ws2_nonzero in Ew.
  set (stw := with_machine (code st) s st).
  destruct (setFilter_frame address stw) as (Hc & Hh & _).
  destruct (setFilter address stw) as [cfg st0]. cbn [snd] in Hc, Hh.
  intros H. exists ws2, st0. split; [exact Ew|].
  split; [exact Hc|]. split; [exact Hh|].
  destruct (attach_chain hooked_exports ws2 st0) as [[|] st2];
    cbn [negb fst snd] in *.
  - destruct (GetModuleHandleExW _) as [inst s2].
    assert (Hst : st1 = with_instance inst
                          (with_machine
                             (code (OutputDebugString
                                      "SteamFilter hook attached\n" st2))
                             s2
                             (OutputDebugString
                                "SteamFilter hook attached\n" st2)))
      by congruence.
    rewrite Hst. repeat split.
  - rewrite failure_code in H. discriminate.
Qed.

Lemma Restorable_after_install fuel address st st1 :
  never_installed st ->
  stub_protect_ok -> addresses_unsigned -> (forall lib, exports_apart lib) ->
  SteamFilter fuel address st = Some (1, st1) ->
  Restorable (code st) st1 /\ m_resume (hook H_connect st1) <> 0.
Proof.
  intros Hfresh Hstub Huns Hapart Hfirst.
  destruct (first_install_success fuel address st st1 (Hfresh _) Hfirst)
    as (ws2 & st0 & _ & Hc0 & Hh0 & Hok & Hc1 & Hh1).
  assert (Hnull0 : never_installed st0).
  { intros id. unfold hook. rewrite Hh0. apply Hfresh. }
  assert (Hres0 : Restorable (code st) st0).
  { apply (Restorable_frame _ st); auto.
    now apply Restorable_never_installed. }
  pose proof (attach_chain_Restorable (code st) ws2 hooked_exports st0
                Hstub Huns (Hapart ws2) (incl_refl _) hooked_exports_NoDup
                (fun id _ _ => Hnull0 id) Hres0) as Hres2.
  pose proof (attach_chain_installed ws2 hooked_exports st0 Hstub Huns
                hooked_exports_NoDup Hok H_connect "connect"%string
                (or_introl eq_refl)) as Hcon.
  revert Hc1 Hh1 Hres2 Hcon.
  generalize (snd (attach_chain hooked_exports ws2 st0)).
  intros st2 Hc1 Hh1 Hres2 Hcon. split.
  - apply (Restorable_frame _ st2); auto. apply Hres2.
    intros id Hres. now rewrite Hnull0 in Hres.
  - unfold hook. rewrite Hh1. exact Hcon.
Qed.

(** X19.  Install, then unload: where stubs can be made executable, the
    hooked exports lie apart and the module could be pinned,
    [FilterUnload] after a successful first [SteamFilter] returns 1,
    leaves no record installed, clears [g_instance] and puts every code
    byte back to what it was before the install. *)
Theorem install_unload_round_trip fuel address st st1 :
  never_installed st ->
  stub_protect_ok -> addresses_unsigned -> (forall lib, exports_apart lib) ->
  SteamFilter fuel address st = Some (1, st1) ->
  g_instance st1 <> 0 ->
  fst (FilterUnload st1) = 1
  /\ never_installed (snd (FilterUnload st1))
  /\ g_instance (snd (FilterUnload st1)) = 0
  /\ forall a, code (snd (FilterUnload st1)) a = code st a.
Proof.
  intros Hfresh Hstub Huns Hapart Hfirst Hinst.
  destruct (Restorable_after_install fuel address st st1 Hfresh Hstub Huns
              Hapart Hfirst) as [Hres Hcon].
  unfold FilterUnload, removeHook, hook_is_null.
  apply Z.eqb_neq in Hinst, Hcon. rewrite Hinst, Hcon. cbn [fst snd].
  pose proof (Restorable_unhookAll (code st) st1 Hres) as Hcode.
  pose proof (unhookAll_resume st1) as Hnull.
  revert Hcode Hnull. generalize (unhookAll st1). intros st2 Hcode Hnull.
  repeat split.
  - intros id. apply Hnull.
  - exact Hcode.
Qed.

(** X20.  Install, then process detach: [DllMain] with
    [DLL_PROCESS_DETACH] removes the hooks as [FilterUnload] does and
    puts the code back, but does not release the module: [g_instance]
    and the system are left as they were. *)
Theorem install_detach_round_trip fuel address st st1 :
  never_installed st ->
  stub_protect_ok -> addresses_unsigned -> (forall lib, exports_apart lib) ->
  SteamFilter fuel address st = Some (1, st1) ->
  never_installed (snd (DllMain DLL_PROCESS_DETACH st1))
  /\ g_instance (snd (DllMain DLL_PROCESS_DETACH st1)) = g_instance st1
  /\ sys (snd (DllMain DLL_PROCESS_DETACH st1)) = sys st1
  /\ forall a, code (snd (DllMain DLL_PROCESS_DETACH st1)) a = code st a.
Proof.
  intros Hfresh Hstub Huns Hapart Hfirst.
  destruct (Restorable_after_install fuel address st st1 Hfresh Hstub Huns
              Hapart Hfirst) as [Hres Hcon].
  unfold DllMain, removeHook, hook_is_null.
  apply Z.eqb_neq in Hcon. rewrite Hcon. cbn [Z.eqb negb fst snd].
  pose proof (Restorable_unhookAll (code st) st1 Hres) as Hcode.
  pose proof (unhookAll_resume st1) as Hnull.
  assert (Hfr : g_instance (unhookAll st1) = g_instance st1
                /\ sys (unhookAll st1) = sys st1).
  { unfold unhookAll.
    repeat match goal with
           | |- context [unhook ?i ?s] =>
               let H := fresh in
               pose proof (unhook_frame i s) as H;
               destruct H as (_ & -> & -> & _)
           end.
    split; reflexivity. }
  revert Hcode Hnull Hfr. generalize (unhookAll st1).
  intros st2 Hcode Hnull [Hgi Hsys].
  repeat split; assumption.
Qed.

Lemma attach_chain_missing lib targets id name : forall st,
  In (id, name) targets ->
  GetProcAddress lib name = 0 ->
  fst (attach_chain targets lib st) = false.
Proof.
  induction targets as [|[id' name'] rest IH]; intros st Hin Hz.
  - destruct Hin.
  - cbn [attach_chain].
    destruct (attach_export id' (handler_addr id') lib name' st)
      as [[|] st1] eqn:E; [|reflexivity].
    destruct Hin as [Heq|Hin].
    + inversion Heq; subst. unfold attach_export in E.
      rewrite Hz in E. cbn [Z.eqb] in E. discriminate.
    + now apply IH.
Qed.

(** X21.  A library that lacks one of the six exports makes the first
    call fail: [SteamFilter] returns [-1] once WS2_32.DLL is there. *)
Theorem missing_export_fails n fuel address st id name :
  m_resume (hook H_connect st) = 0 ->
  ws2_shows_up n (sys st) -> (n < fuel)%nat ->
  In (id, name) hooked_exports ->
  (forall lib, GetProcAddress lib name = 0) ->
  exists st', SteamFilter fuel address st = Some (-1, st')
              /\ never_installed st'.
Proof.
  intros Hnull Hup Hlt Hin Hmiss. unfold SteamFilter, hook_not_null.
  rewrite Hnull. cbn [Z.eqb negb].
  destruct (wait_ws2_returns n fuel (sys st) Hup Hlt)
    as (ws2 & s' & -> & _).
  destruct (setFilter address _) as [cfg st0].
  pose proof (attach_chain_missing ws2 hooked_exports id name st0 Hin
                (Hmiss ws2)) as Hf.
  destruct (attach_chain hooked_exports ws2 st0) as [ok st2].
  cbn [fst] in Hf. subst ok. cbn [negb]. rewrite failure_code.
  eexists. split; [reflexivity|]. intros i. apply unhookAll_resume.
Qed.

Lemma attach_chain_located lib targets : forall st,
  NoDup (map fst targets) ->
  fst (attach_chain targets lib st) = true ->
  forall id name,
    In (id, name) targets ->
    m_original (hook id (snd (attach_chain targets lib st)))
    = GetProcAddress lib name
    /\ GetProcAddress lib name <> 0.
Proof.
  induction targets as [|[id' name'] rest IH]; intros st Hnd Hok id name Hin.
  - destruct Hin.
  - cbn [attach_chain] in *. cbn [map fst] in Hnd.
    inversion Hnd as [|? ? Hnotin Hnd']; subst.
    pose proof (attach_export_true id' (handler_addr id') lib name' st)
      as Ht.
    destruct (attach_export id' (handler_addr id') lib name' st)
      as [[|] st1]; cbn [fst snd] in *; [|discriminate].
    destruct Hin as [Heq|Hin].
    + inversion Heq; subst; clear Heq.
      rewrite attach_chain_other by exact Hnotin.
      destruct (Ht eq_refl) as (Hp & Ho & _). now split.
    + now apply (IH st1 Hnd' Hok id name).
Qed.

(** X22.  A first call that reports success has hooked every one of the
    six exports: each record holds the address the export resolved to in
    WS2_32.DLL and, where stubs can be made executable, a resume
    address; the record of [inet_addr] is as it was. *)
Theorem install_success_hooks fuel address st st1 :
  never_installed st ->
  stub_protect_ok -> addresses_unsigned ->
  SteamFilter fuel address st = Some (1, st1) ->
  exists ws2,
    ws2 <> 0
    /\ (forall id name,
           In (id, name) hooked_exports ->
           m_original (hook id st1) = GetProcAddress ws2 name
           /\ GetProcAddress ws2 name <> 0
           /\ m_resume (hook id st1) <> 0)
    /\ hook H_inet_addr st1 = hook H_inet_addr st.
Proof.
  intros Hfresh Hstub Huns Hfirst.
  destruct (first_install_success fuel address st st1 (Hfresh _) Hfirst)
    as (ws2 & st0 & Hws2 & Hc0 & Hh0 & Hok & Hc1 & Hh1).
  exists ws2. split; [exact Hws2|].
  pose proof (attach_chain_located ws2 hooked_exports st0
                hooked_exports_NoDup Hok) as Hloc.
  pose proof (attach_chain_installed ws2 hooked_exports st0 Hstub Huns
                hooked_exports_NoDup Hok) as Hins.
  assert (Hinet : hook H_inet_addr
                       (snd (attach_chain hooked_exports ws2 st0))
                  = hook H_inet_addr st0).
  { apply attach_chain_other. cbn. intuition discriminate. }
  revert Hc1 Hh1 Hloc Hins Hinet.
  generalize (snd (attach_chain hooked_exports ws2 st0)).
  intros st2 Hc1 Hh1 Hloc Hins Hinet.
  unfold hook in *. rewrite Hh1. split.
  - intros id name Hin. destruct (Hloc id name Hin) as [Ho Hnz].
    repeat split; try assumption. now apply (Hins id name).
  - rewrite Hinet, Hh0. reflexivity.
Qed.

(** X23.  While WS2_32.DLL is not loaded a first call does not return,
    however many polls it is given. *)
Theorem install_waits_for_ws2 fuel address st :
  m_resume (hook H_connect st) = 0 ->
  (forall n, ~ ws2_shows_up n (sys st)) ->
  SteamFilter fuel address st = None.
Proof.
  intros Hnull Hnever. unfold SteamFilter, hook_not_null.
  rewrite Hnull. cbn [Z.eqb negb].
  now rewrite wait_ws2_never.
Qed.

(** X24.  The wait ends at the first poll that finds WS2_32.DLL, after
    one sleep for each poll that did not, with the handle and the system
    of that poll. *)
Theorem wait_ws2_first_poll n : forall fuel (s : Sys),
  ws2_shows_up n s ->
  (forall k, (k < n)%nat -> ~ ws2_shows_up k s) ->
  (n < fuel)%nat ->
  wait_ws2 fuel s = Some (GetModuleHandleW "WS2_32.DLL" (polls n s)).
Proof.
  induction n as [|n IH]; intros fuel s Hup Hbefore Hlt;
    (destruct fuel as [|fuel]; [lia|]); cbn [wait_ws2 polls].
  - unfold ws2_shows_up in Hup. cbn [polls] in Hup.
    destruct (GetModuleHandleW "WS2_32.DLL" s) as [h s1].
    cbn [fst] in Hup. apply Z.eqb_neq in Hup. now rewrite Hup.
  - pose proof (Hbefore 0%nat ltac:(lia)) as H0.
    unfold ws2_shows_up in H0. cbn [polls] in H0.
    assert (Hz : fst (GetModuleHandleW "WS2_32.DLL" s) = 0) by lia.
    assert (Hup' : ws2_shows_up n
                     (Sleep 1000 (snd (GetModuleHandleW "WS2_32.DLL" s))))
      by exact Hup.
    assert (Hbefore' : forall k, (k < n)%nat ->
              ~ ws2_shows_up k
                  (Sleep 1000 (snd (GetModuleHandleW "WS2_32.DLL" s)))).
    { intros k Hk. exact (Hbefore (S k) ltac:(lia)). }
    destruct (GetModuleHandleW "WS2_32.DLL" s) as [h s1].
    cbn [fst snd] in *. subst h. cbn [Z.eqb negb].
    apply IH; [exact Hup' | exact Hbefore' | lia].
Qed.

End LifecycleExtras.

(** * The scenarios of the further properties *)

Lemma connect_no_match_passthrough_witness :
  sa_family demo_dest = AF_INET
  /\ connectHook (winsock := demo_winsock) (engine := demo_engine)
       (layout := demo_layout) 7 demo_dest 16 (demo_world (false, None))
     = (0, resume (Call_connect 7 demo_dest 16) (later demo_proc)
                  (demo_world (false, None))).
Proof.
  split; [reflexivity|].
  apply (@connect_no_match_passthrough unit Verdict demo_winsock demo_engine
           demo_layout 7 demo_dest 16 (demo_world (false, None)));
    reflexivity.
Defined.

Lemma gethost_passthrough_witness :
  sin_addr demo_any = INADDR_ANY
  /\ gethostHook (winsock := demo_winsock) (engine := demo_engine)
       (layout := demo_layout) "store.steampowered.com"
       (demo_world (true, Some demo_any))
     = (0x5000,
        resume (Call_gethostbyname "store.steampowered.com")
               (later demo_proc) (demo_world (true, Some demo_any))).
Proof.
  split; [reflexivity|].
  apply (@gethost_passthrough unit Verdict demo_winsock demo_engine
           demo_layout "store.steampowered.com"%string
           (demo_world (true, Some demo_any))).
  right. exists demo_any. split; reflexivity.
Defined.

Lemma gethost_redirect_witness :
  sin_addr demo_redirect <> INADDR_ANY
  /\ sin_addr demo_redirect <> INADDR_NONE
  /\ fst (gethostHook (winsock := demo_winsock) (engine := demo_engine)
            (layout := demo_layout) "content1.steampowered.com"
            (demo_world (true, Some demo_redirect))) = 0x7000
  /\ h_addr_list
       (gethost_result
          (snd (gethostHook (winsock := demo_winsock)
                  (engine := demo_engine) (layout := demo_layout)
                  "content1.steampowered.com"
                  (demo_world (true, Some demo_redirect)))))
     = [0x0A000005].
Proof.
  split; [discriminate|]. split; [discriminate|].
  destruct (@gethost_redirect unit Verdict demo_winsock demo_engine
              demo_layout "content1.steampowered.com"%string
              (demo_world (true, Some demo_redirect)) demo_redirect)
    as (Hr & Hh & _); [reflexivity | discriminate | discriminate |].
  split; [exact Hr|]. now rewrite Hh.
Defined.

Lemma wsaRecvHook_peek_excluded_witness :
  Z.land MSG_PEEK MSG_PEEK <> 0
  /\ g_meter (snd (wsaRecvHook (winsock := demo_winsock)
                     (FilterRules := Verdict) 7 0x6000 1 0x6010 0x6020 0 0
                     MSG_PEEK (demo_world (false, None))))
     = Meter_new 1000.
Proof.
  split; [discriminate|].
  apply (@wsaRecvHook_peek_excluded unit Verdict demo_winsock 7 0x6000 1
           0x6010 0x6020 MSG_PEEK (demo_world (false, None)));
    discriminate.
Defined.

Lemma wsaRecvHook_sync_completion_witness :
  g_meter (snd (wsaRecvHook (winsock := demo_winsock)
                  (FilterRules := Verdict) 7 0x6000 1 0x6010 0 0x6100 0
                  0 (demo_world (false, None))))
  = Meter_add 64 1001 (Meter_new 1000).
Proof.
  apply (@wsaRecvHook_sync_completion unit Verdict demo_winsock 7 0x6000 1
           0x6010 0 0x6100 0 0 (demo_world (false, None)));
    [discriminate | reflexivity].
Defined.

Lemma wsaRecvHook_plain_witness :
  g_meter (snd (wsaRecvHook (winsock := pending_winsock)
                  (FilterRules := Verdict) 7 0x6000 1 0x6010 0 0 0
                  0 (demo_world (false, None))))
  = Meter_new 1000
  /\ g_meter (snd (wsaRecvHook (winsock := demo_winsock)
                     (FilterRules := Verdict) 7 0x6000 1 0x6010 0 0 0
                     0 (demo_world (false, None))))
     = Meter_add 64 1001 (Meter_new 1000).
Proof.
  split.
  - apply (proj1 (@wsaRecvHook_plain unit Verdict pending_winsock 7 0x6000
                    1 0x6010 0 0 (demo_world (false, None)))).
    reflexivity.
  - apply (proj2 (@wsaRecvHook_plain unit Verdict demo_winsock 7 0x6000
                    1 0x6010 0 0 (demo_world (false, None))));
      [discriminate | left; reflexivity].
Defined.

Lemma wsaRecvHook_overlapped_unmetered_witness :
  g_meter (snd (wsaRecvHook (winsock := pending_winsock)
                  (FilterRules := Verdict) 7 0x6000 1 0x6010 0 0x6100 0
                  0 (demo_world (false, None))))
  = Meter_new 1000.
Proof.
  apply (@wsaRecvHook_overlapped_unmetered unit Verdict pending_winsock 7
           0x6000 1 0x6010 0 0x6100 0 0 (demo_world (false, None))).
  - left. discriminate.
  - left. discriminate.
Defined.

Lemma attach_detour_layout_witness :
  fst (attach (win32 := fair_win32) (layout := demo_layout)
              H_connect 0x1000 0x8000 (demo_dll demo_code)) = true
  /\ code (snd (attach (win32 := fair_win32) (layout := demo_layout)
                       H_connect 0x1000 0x8000 (demo_dll demo_code)))
          0xFFB = JMP_LONG
  /\ jmp_long_target 0xFFB
       (le32 (read_bytes
                (code (snd (attach (win32 := fair_win32)
                              (layout := demo_layout)
                              H_connect 0x1000 0x8000 (demo_dll demo_code))))
                0xFFC 4)) = 0x8000.
Proof.
  assert (Hok : fst (attach (win32 := fair_win32) (layout := demo_layout)
                       H_connect 0x1000 0x8000 (demo_dll demo_code)) = true)
    by reflexivity.
  split; [exact Hok|].
  destruct (@attach_detour_layout nat Verdict fair_win32 demo_layout
              H_connect 0x1000 0x8000 (demo_dll demo_code) Hok)
    as (H5 & Hl & _).
  split; [exact H5 | exact Hl].
Defined.

Lemma makeThunk_stub_witness :
  firstn 7 (m_thunk (snd (fst (makeThunk (win32 := fair_win32) 0x9014 0x1000
                                 2 ApiHook_new push_code 0%nat))))
  = [0x6A; 0x10; 0xE9; 0x14; 0x80; 0x00; 0x00]
  /\ jmp_long_target 0x9016
       (le32 (firstn 4 (skipn 3
          (m_thunk (snd (fst (makeThunk (win32 := fair_win32) 0x9014 0x1000
                                2 ApiHook_new push_code 0%nat)))))))
     <> 0x1002.
Proof.
  destruct (@makeThunk_stub nat fair_win32 0x9014 0x1000 ApiHook_new
              push_code 0%nat eq_refl) as (Hb & _ & Hj).
  split; [exact Hb | exact Hj].
Defined.

Lemma attach_unhook_round_trip_witness :
  fst (attach (win32 := fair_win32) (layout := demo_layout)
              H_recv 0x1200 0x8200 (demo_dll demo_code)) = true
  /\ m_resume (hook H_recv
                 (snd (attach (win32 := fair_win32) (layout := demo_layout)
                         H_recv 0x1200 0x8200 (demo_dll demo_code))))
     <> 0
  /\ forall a,
      code (unhook H_recv
              (snd (attach (win32 := fair_win32) (layout := demo_layout)
                      H_recv 0x1200 0x8200 (demo_dll demo_code)))) a
      = demo_code a.
Proof.
  split; [reflexivity|]. split; [vm_compute; discriminate|].
  apply (@attach_unhook_round_trip nat Verdict fair_win32 demo_layout
           H_recv 0x1200 0x8200 (demo_dll demo_code));
    [reflexivity | vm_compute; discriminate].
Defined.

Lemma attach_twice_rejected_witness :
  fst (attach (win32 := fair_win32) (layout := demo_layout)
              H_recv 0x1200 0x8200 (demo_dll demo_code)) = true
  /\ fst (attach (win32 := fair_win32) (layout := demo_layout)
            H_recvfrom 0x1200 0x8300
            (snd (attach (win32 := fair_win32) (layout := demo_layout)
                    H_recv 0x1200 0x8200 (demo_dll demo_code)))) = false.
Proof.
  split; [reflexivity|].
  apply (@attach_twice_rejected nat Verdict fair_win32 demo_layout
           H_recv 0x1200 0x8200 (demo_dll demo_code) H_recvfrom 0x8300).
  reflexivity.
Defined.

(** The install of the fair system over the patchable code. *)
Lemma demo_install :
  exists st1,
    SteamFilter (win32 := fair_win32) (engine := demo_engine)
                (layout := demo_layout) 5 "27030" (demo_dll demo_code)
    = Some (1, st1)
    /\ g_instance st1 = 0x20000.
Proof.
  destruct (SteamFilter (win32 := fair_win32) (engine := demo_engine)
              (layout := demo_layout) 5 "27030" (demo_dll demo_code))
    as [[r st1]|] eqn:E.
  - assert (H : option_map (fun x => (fst x, g_instance (snd x)))
                  (SteamFilter (win32 := fair_win32) (engine := demo_engine)
                     (layout := demo_layout) 5 "27030" (demo_dll demo_code))
                = Some (1, 0x20000)) by (vm_compute; reflexivity).
    rewrite E in H. cbn [option_map fst snd] in H.
    exists st1. split; [|congruence].
    f_equal. f_equal. congruence.
  - exfalso. vm_compute in E. discriminate.
Defined.

Lemma install_unload_round_trip_witness :
  exists st1,
    SteamFilter (win32 := fair_win32) (engine := demo_engine)
                (layout := demo_layout) 5 "27030" (demo_dll demo_code)
    = Some (1, st1)
    /\ g_instance st1 <> 0
    /\ fst (FilterUnload (win32 := fair_win32) st1) = 1
    /\ forall a, code (snd (FilterUnload (win32 := fair_win32) st1)) a
                 = demo_code a.
Proof.
  destruct demo_install as (st1 & E & Hgi).
  exists st1. split; [exact E|].
  assert (Hnz : g_instance st1 <> 0) by (rewrite Hgi; discriminate).
  split; [exact Hnz|].
  destruct (@install_unload_round_trip nat Verdict fair_win32 demo_engine
              demo_layout 5 "27030"%string (demo_dll demo_code) st1
              (demo_never_installed demo_code) fair_stub_protect_ok
              demo_addresses_unsigned demo_exports_apart E Hnz)
    as (Hr & _ & _ & Hc).
  split; [exact Hr | exact Hc].
Defined.

Lemma install_detach_round_trip_witness :
  exists st1,
    SteamFilter (win32 := fair_win32) (engine := demo_engine)
                (layout := demo_layout) 5 "27030" (demo_dll demo_code)
    = Some (1, st1)
    /\ g_instance (snd (DllMain DLL_PROCESS_DETACH st1)) = 0x20000
    /\ forall a, code (snd (DllMain DLL_PROCESS_DETACH st1)) a
                 = demo_code a.
Proof.
  destruct demo_install as (st1 & E & Hgi).
  exists st1. split; [exact E|].
  destruct (@install_detach_round_trip nat Verdict fair_win32 demo_engine
              demo_layout 5 "27030"%string (demo_dll demo_code) st1
              (demo_never_installed demo_code) fair_stub_protect_ok
              demo_addresses_unsigned demo_exports_apart E)
    as (_ & Hg & _ & Hc).
  split; [now rewrite Hg | exact Hc].
Defined.

Lemma missing_export_fails_witness :
  @ws2_shows_up nat legacy_win32 2 0%nat
  /\ (forall lib, legacy_exports lib "WSAGetOverlappedResult" = 0)
  /\ exists st',
      SteamFilter (win32 := legacy_win32) (engine := demo_engine)
                  (layout := demo_layout) 5 "27030" (demo_dll demo_code)
      = Some (-1, st')
      /\ never_installed st'.
Proof.
  split; [vm_compute; discriminate|].
  split; [reflexivity|].
  apply (@missing_export_fails nat Verdict legacy_win32 demo_engine
           demo_layout 2 5 "27030"%string (demo_dll demo_code)
           H_wsaGetOverlapped "WSAGetOverlappedResult"%string).
  - reflexivity.
  - vm_compute. discriminate.
  - lia.
  - cbn. tauto.
  - reflexivity.
Defined.

Lemma install_success_hooks_witness :
  exists st1,
    SteamFilter (win32 := fair_win32) (engine := demo_engine)
                (layout := demo_layout) 5 "27030" (demo_dll demo_code)
    = Some (1, st1)
    /\ m_original (hook H_wsaRecv st1) = 0x1400
    /\ m_resume (hook H_wsaRecv st1) <> 0
    /\ hook H_inet_addr st1 = ApiHook_new.
Proof.
  destruct demo_install as (st1 & E & _).
  exists st1. split; [exact E|].
  destruct (@install_success_hooks nat Verdict fair_win32 demo_engine
              demo_layout 5 "27030"%string (demo_dll demo_code) st1
              (demo_never_installed demo_code) fair_stub_protect_ok
              demo_addresses_unsigned E)
    as (ws2 & _ & Hall & Hinet).
  destruct (Hall H_wsaRecv "WSARecv"%string) as (Ho & _ & Hr).
  { cbn. tauto. }
  split; [exact Ho|]. split; [exact Hr | exact Hinet].
Defined.

Lemma install_waits_for_ws2_witness :
  (forall n, ~ @ws2_shows_up nat absent_win32 n 0%nat)
  /\ SteamFilter (win32 := absent_win32) (engine := demo_engine)
       (layout := demo_layout) 1000 "27030" (demo_dll demo_code)
     = None.
Proof.
  assert (Hnever : forall n, ~ @ws2_shows_up nat absent_win32 n 0%nat).
  { intros n H. apply H. reflexivity. }
  split; [exact Hnever|].
  apply (@install_waits_for_ws2 nat Verdict absent_win32 demo_engine
           demo_layout 1000 "27030"%string (demo_dll demo_code));
    [reflexivity | exact Hnever].
Defined.

Lemma wait_ws2_first_poll_witness :
  @ws2_shows_up nat fair_win32 2 0%nat
  /\ wait_ws2 (win32 := fair_win32) 5 0%nat = Some (0x10000, 2%nat).
Proof.
  split; [vm_compute; discriminate|].
  apply (@wait_ws2_first_poll nat fair_win32 2 5 0%nat).
  - vm_compute. discriminate.
  - intros k Hk H. apply H.
    destruct k as [|[|k]]; [reflexivity | reflexivity | lia].
  - lia.
Defined.

Lemma reinstall_reconfigures_witness :
  exists st1,
    SteamFilter (win32 := fair_win32) (engine := demo_engine)
                (layout := demo_layout) 5 "27030" (demo_dll demo_code)
    = Some (1, st1)
    /\ SteamFilter (win32 := fair_win32) (engine := demo_engine)
                   (layout := demo_layout) 0 "27031" st1
       = Some (setFilter (engine := demo_engine) "27031" st1)
    /\ code (snd (setFilter (engine := demo_engine) "27031" st1))
       = code st1.
Proof.
  destruct demo_install as (st1 & E & _).
  exists st1. split; [exact E|].
  destruct (@reinstall_reconfigures nat Verdict fair_win32 demo_engine
              demo_layout 5 "27030"%string (demo_dll demo_code) st1
              0%nat "27031"%string
              (demo_never_installed demo_code) fair_stub_protect_ok
              demo_addresses_unsigned E)
    as (Hagain & _ & Hcode).
  split; [exact Hagain | exact Hcode].
Defined.
